(** * Ticket reconciliation scripts of DaDevFox/task-systems

    A shallow embedding of [parse_local_ticket_files.py] and
    [compare_and_export.py].  Both scripts work on untyped Python data
    (the result of [ast.literal_eval] and of [json.load]), so the
    embedding starts with a small model of Python values: truthiness,
    [==], hashability, dictionaries in insertion order, and the few
    string operations the scripts call.  What the interpreter decides
    from its Unicode tables or its number syntax ([upper], [strip],
    [int] and [float] of a string) is a parameter, [runtime].
    Exceptions are explicit: an operation that can raise returns a
    [result].  Input and output are outside the model: the scripts
    are followed up to the point where they write their result. *)

From Stdlib Require Import ZArith List String Ascii Bool Lia.
From Stdlib Require Import Floats.SpecFloat.
Import ListNotations.

Set Warnings "-register-all".

Open Scope string_scope.
Open Scope list_scope.

(* ================================================================= *)
(** ** Python values *)

Module Py.

(** The values a literal or a JSON document evaluates to.  A [float] is
    an IEEE number in Rocq's specification format; a [str] is its
    text in UTF-8, one code point as one to four 8-bit characters.
    Equality, emptiness, [split(',')] and [in] are the same on the
    encoded text as on the code points; [upper] and [strip], which
    depend on the Unicode tables, are part of the [runtime]. *)
Inductive value : Type :=
| VNone
| VBool (b : bool)
| VInt (n : Z)
| VFloat (f : spec_float)
| VStr (s : string)
| VList (items : list value)
| VTuple (items : list value)
| VDict (entries : list (value * value)).

(** A [dict]: its entries in insertion order, keys pairwise different. *)
Definition dict := list (value * value).

(** The exceptions the scripts can meet; all are subclasses of
    [Exception].  ([json.JSONDecodeError] is a [ValueError].) *)
Inductive exn : Type :=
| TypeError | AttributeError | KeyError | IndexError
| ValueError | OverflowError | RuntimeError.

Inductive result (A : Type) : Type :=
| Ok (a : A)
| Raise (e : exn).
Arguments Ok {A} a.
Arguments Raise {A} e.

Definition bind {A B} (r : result A) (k : A -> result B) : result B :=
  match r with
  | Ok a => k a
  | Raise e => Raise e
  end.

Notation "x <- r ;; k" := (bind r (fun x => k))
  (at level 61, r at next level, right associativity).

(** [try: r  except Exception: h] *)
Definition try_except {A} (r : result A) (h : A) : A :=
  match r with
  | Ok a => a
  | Raise _ => h
  end.

(** *** Truthiness: [bool(v)], the test behind [not], [or] and [if] *)

Definition float_is_zero (f : spec_float) : bool :=
  match f with
  | S754_zero _ => true
  | _ => false
  end.

Definition truthy (v : value) : bool :=
  match v with
  | VNone => false
  | VBool b => b
  | VInt n => negb (n =? 0)%Z
  | VFloat f => negb (float_is_zero f)
  | VStr s => negb (String.eqb s "")
  | VList l => negb (Nat.eqb (List.length l) 0)
  | VTuple l => negb (Nat.eqb (List.length l) 0)
  | VDict d => negb (Nat.eqb (List.length d) 0)
  end.

(** [a or b] *)
Definition py_or (a b : value) : value := if truthy a then a else b.

Infix "<or>" := py_or (at level 50, left associativity).

Definition is_none (v : value) : bool :=
  match v with VNone => true | _ => false end.

(** [isinstance(v, str)], [isinstance(v, int)] ([bool] is a subclass of
    [int]), [isinstance(v, dict)], [isinstance(v, list)] *)
Definition is_str (v : value) : bool :=
  match v with VStr _ => true | _ => false end.
Definition is_int (v : value) : bool :=
  match v with VInt _ | VBool _ => true | _ => false end.
Definition is_dict (v : value) : bool :=
  match v with VDict _ => true | _ => false end.
Definition is_list (v : value) : bool :=
  match v with VList _ => true | _ => false end.

(** *** Equality: [a == b] *)

(** Numbers compare by value across [bool], [int] and [float]. *)
Inductive num : Type :=
| NInt (n : Z)
| NFloat (f : spec_float).

Definition as_num (v : value) : option num :=
  match v with
  | VBool b => Some (NInt (if b then 1 else 0)%Z)
  | VInt n => Some (NInt n)
  | VFloat f => Some (NFloat f)
  | _ => None
  end.

(** A float equals an integer when it is finite and its exact value
    [(-1)^s * m * 2^e] is that integer. *)
Definition float_eq_int (f : spec_float) (n : Z) : bool :=
  match f with
  | S754_zero _ => (n =? 0)%Z
  | S754_finite s m e =>
      if (0 <=? e)%Z
      then (cond_Zopp s (Zpos m * 2 ^ e) =? n)%Z
      else (cond_Zopp s (Zpos m) =? n * 2 ^ (- e))%Z
  | _ => false
  end.

Definition num_eq (a b : num) : bool :=
  match a, b with
  | NInt x, NInt y => (x =? y)%Z
  | NInt x, NFloat g => float_eq_int g x
  | NFloat f, NInt y => float_eq_int f y
  | NFloat f, NFloat g => SFeqb f g
  end.

Fixpoint py_eq (a b : value) {struct a} : bool :=
  let fix seq_eq (xs ys : list value) {struct xs} : bool :=
    match xs, ys with
    | [], [] => true
    | x :: xs', y :: ys' => py_eq x y && seq_eq xs' ys'
    | _, _ => false
    end in
  let fix entries_in (es other : list (value * value)) {struct es} : bool :=
    match es with
    | [] => true
    | (k, v) :: es' =>
        existsb (fun kv => py_eq k (fst kv) && py_eq v (snd kv)) other
        && entries_in es' other
    end in
  match a, b with
  | VNone, VNone => true
  | VStr s, VStr t => String.eqb s t
  | VList xs, VList ys => seq_eq xs ys
  | VTuple xs, VTuple ys => seq_eq xs ys
  | VDict es, VDict fs =>
      Nat.eqb (List.length es) (List.length fs) && entries_in es fs
  | VBool x, _ =>
      match as_num b with
      | Some nb => num_eq (NInt (if x then 1 else 0)%Z) nb
      | None => false
      end
  | VInt x, _ =>
      match as_num b with
      | Some nb => num_eq (NInt x) nb
      | None => false
      end
  | VFloat f, _ =>
      match as_num b with
      | Some nb => num_eq (NFloat f) nb
      | None => false
      end
  | _, _ => false
  end.

(** *** Hashing: what may be a dictionary key or a set member *)

Fixpoint hashable (v : value) : bool :=
  match v with
  | VList _ | VDict _ => false
  | VTuple xs => forallb hashable xs
  | _ => true
  end.

(** *** Dictionaries *)

(** The entry stored under a key equal to [k], for a hashable [k]. *)
Fixpoint dict_find (k : value) (d : dict) : option value :=
  match d with
  | [] => None
  | (k', v) :: d' => if py_eq k k' then Some v else dict_find k d'
  end.

(** [d.get(name)] for a string constant [name] *)
Definition dict_get (d : dict) (name : string) : value :=
  match dict_find (VStr name) d with
  | Some v => v
  | None => VNone
  end.

(** [k in d]: hashes [k] first *)
Definition dict_contains (k : value) (d : dict) : result bool :=
  if hashable k
  then Ok (match dict_find k d with Some _ => true | None => false end)
  else Raise TypeError.

(** [d[k]] *)
Definition dict_getitem (d : dict) (k : value) : result value :=
  if hashable k
  then match dict_find k d with
       | Some v => Ok v
       | None => Raise KeyError
       end
  else Raise TypeError.

(** [d[k] = v]: an existing key keeps its place *)
Fixpoint dict_set (d : dict) (k v : value) : dict :=
  match d with
  | [] => [(k, v)]
  | (k', v') :: d' =>
      if py_eq k k' then (k', v) :: d' else (k', v') :: dict_set d' k v
  end.

(** *** Sets of hashable values ([set()], [x in s], [s.add(x)]) *)

Definition pyset := list value.

Definition set_mem (x : value) (s : pyset) : bool := existsb (py_eq x) s.

Definition set_contains (x : value) (s : pyset) : result bool :=
  if hashable x then Ok (set_mem x s) else Raise TypeError.

Definition set_add (x : value) (s : pyset) : pyset :=
  if set_mem x s then s else s ++ [x].

(** *** Strings *)

(** [c.upper()] where [c] is an ASCII character; a character outside
    ASCII is left as it is, which is not what Python does to a letter
    such as U+00E9.  [upper] and [strip] below are the two methods on
    ASCII text only; they serve as one instance of the [runtime]. *)
Definition upper_char (c : ascii) : ascii :=
  let n := nat_of_ascii c in
  if Nat.leb 97 n && Nat.leb n 122 then ascii_of_nat (n - 32) else c.

(** [s.upper()] for ASCII [s] *)
Fixpoint upper (s : string) : string :=
  match s with
  | EmptyString => EmptyString
  | String c s' => String (upper_char c) (upper s')
  end.

(** [needle in hay] on strings: [needle] occurs somewhere in [hay] *)
Fixpoint str_in (needle hay : string) : bool :=
  String.prefix needle hay
  || match hay with
     | EmptyString => false
     | String _ hay' => str_in needle hay'
     end.

(** The ASCII characters [str.isspace] holds of.  Python strips
    further white space (U+0085, U+00A0, U+2003, ...), which
    [is_space] does not know. *)
Definition is_space (c : ascii) : bool :=
  let n := nat_of_ascii c in
  (Nat.leb 9 n && Nat.leb n 13) || (Nat.leb 28 n && Nat.leb n 32).

Fixpoint lstrip (s : string) : string :=
  match s with
  | EmptyString => EmptyString
  | String c s' => if is_space c then lstrip s' else s
  end.

Fixpoint rstrip (s : string) : string :=
  match s with
  | EmptyString => EmptyString
  | String c s' =>
      let r := rstrip s' in
      if is_space c && String.eqb r "" then "" else String c r
  end.

(** [s.strip()] for ASCII [s] *)
Definition strip (s : string) : string := rstrip (lstrip s).

(** [s.split(',')] *)
Fixpoint split_comma (s : string) : list string :=
  match s with
  | EmptyString => [""]
  | String c s' =>
      if Ascii.eqb c ","%char then "" :: split_comma s'
      else match split_comma s' with
           | piece :: rest => String c piece :: rest
           | [] => [String c ""]
           end
  end.

(** *** Numeric coercions: [int(v)] and [float(v)] *)

(** What the interpreter's built-ins on text give: [int(s)] and
    [float(s)] for a string [s], [None] where Python raises
    [ValueError]; [s.upper()] and [s.strip()], which follow the
    Unicode case and white-space tables.  The scripts only call them;
    they are taken as given, and nothing is assumed of them. *)
Record runtime : Type := {
  int_of_str : string -> option Z;
  float_of_str : string -> option spec_float;
  str_upper : string -> string;
  str_strip : string -> string
}.

(** [int(f)] truncates a finite float toward zero. *)
Definition float_trunc (f : spec_float) : result Z :=
  match f with
  | S754_zero _ => Ok 0%Z
  | S754_finite s m e =>
      Ok (cond_Zopp s (if (0 <=? e)%Z then Zpos m * 2 ^ e
                       else Zpos m / 2 ^ (- e)))%Z
  | S754_infinity _ => Raise OverflowError
  | S754_nan => Raise ValueError
  end.

(** [float(n)] rounds to the nearest double. *)
Definition float_of_Z (n : Z) : result spec_float :=
  match binary_normalize 53 1024 n 0 false with
  | S754_infinity _ => Raise OverflowError
  | f => Ok f
  end.

Definition py_int (rt : runtime) (v : value) : result Z :=
  match v with
  | VBool b => Ok (if b then 1 else 0)%Z
  | VInt n => Ok n
  | VFloat f => float_trunc f
  | VStr s =>
      match int_of_str rt s with
      | Some n => Ok n
      | None => Raise ValueError
      end
  | _ => Raise TypeError
  end.

Definition py_float (rt : runtime) (v : value) : result spec_float :=
  match v with
  | VBool b => float_of_Z (if b then 1 else 0)
  | VInt n => float_of_Z n
  | VFloat f => Ok f
  | VStr s =>
      match float_of_str rt s with
      | Some f => Ok f
      | None => Raise ValueError
      end
  | _ => Raise TypeError
  end.

(** A runtime for sample data that is ASCII throughout and holds no
    number written as text: [upper] and [strip] are those of ASCII,
    and no string is read as a number. *)
Definition ascii_runtime : runtime :=
  {| int_of_str := fun _ => None;
     float_of_str := fun _ => None;
     str_upper := upper;
     str_strip := strip |}.

End Py.

Import Py.

(* ================================================================= *)
(** ** parse_local_ticket_files.py *)

Module ParseLocalTicketFiles.

Definition PATTERNS : list string :=
  ["create_*.py"; "create_all_*.py"; "create_remaining*.py";
   "create_go*.py"; "*create*.py"].

(** The string branch of the label normalisation:
    [[s.strip() for s in labels.split(',') if s.strip()]] *)
Definition split_labels (rt : runtime) (s : string) : list value :=
  map (fun piece => VStr (str_strip rt piece))
      (filter (fun piece => truthy (VStr (str_strip rt piece)))
              (split_comma s)).

Definition normalize_labels (rt : runtime) (labels : value) : value :=
  match labels with
  | VStr s => VList (split_labels rt s)
  | other => other
  end.

(** The [try: int(..) except: try: float(..) except: None] ladder, run
    when the value is not [None]. *)
Definition normalize_points (rt : runtime) (points : value) : value :=
  if is_none points then points
  else match py_int rt points with
       | Ok n => VInt n
       | Raise _ =>
           match py_float rt points with
           | Ok f => VFloat f
           | Raise _ => VNone
           end
       end.

Definition normalize_ticket (rt : runtime) (d : dict) : dict :=
  let canonical_id :=
    dict_get d "canonical_id" <or> dict_get d "id" <or> dict_get d "key"
      <or> dict_get d "ticket_id" <or> VNone in
  let title :=
    dict_get d "title" <or> dict_get d "name" <or> dict_get d "summary"
      <or> VStr "" in
  let body :=
    dict_get d "body" <or> dict_get d "description" <or> dict_get d "desc"
      <or> VStr "" in
  let labels := dict_get d "labels" <or> dict_get d "tags" <or> VList [] in
  let parent_canonical :=
    dict_get d "parent" <or> dict_get d "parent_id"
      <or> dict_get d "parent_key" <or> VNone in
  let points := dict_get d "points" <or> dict_get d "estimate" <or> VNone in
  let priority := dict_get d "priority" <or> VNone in
  let requires := dict_get d "requires" <or> dict_get d "REQUIRES" <or> VStr "" in
  let provides := dict_get d "provides" <or> dict_get d "PROVIDES" <or> VStr "" in
  [ (VStr "canonical_id", canonical_id);
    (VStr "title", title);
    (VStr "body", body);
    (VStr "labels", normalize_labels rt labels);
    (VStr "parent_canonical", parent_canonical);
    (VStr "points", normalize_points rt points);
    (VStr "priority", priority);
    (VStr "requires", requires);
    (VStr "provides", provides) ].

(** *** Literal extraction *)

(** What [extract_literals_from_file] looks at in a parsed module: the
    kind of each top-level statement, the syntactic class of its value,
    and what [ast.literal_eval] makes of that value. *)
Inductive expr_class : Type := EList | ETuple | EDict | EOther.

Inductive stmt : Type :=
| Assign (cls : expr_class) (literal_eval : result value)
| Expr (cls : expr_class) (literal_eval : result value)
| OtherStmt.

(** A source file: its path, and its top-level statements, or the
    message of the exception that reading or parsing it raises. *)
Record file : Type := {
  path : string;
  parsed : string + list stmt
}.

Definition literal_of (cls : expr_class) (ev : result value) : list value :=
  match cls with
  | EList | ETuple | EDict =>
      match ev with
      | Ok obj => [obj]
      | Raise _ => []
      end
  | EOther => []
  end.

Definition extract_literals_from_file (f : file) : string + list value :=
  match parsed f with
  | inl message => inl message
  | inr body =>
      inr (flat_map (fun node =>
                       match node with
                       | Assign cls ev => literal_of cls ev
                       | Expr cls ev => literal_of cls ev
                       | OtherStmt => []
                       end) body)
  end.

(** *** The run *)

Record run_state : Type := {
  seen_titles : pyset;
  candidate_list : list dict;
  errors : list dict
}.

Definition initial : run_state :=
  {| seen_titles := []; candidate_list := []; errors := [] |}.

(** The four lines every branch of [main] runs on a normalised record:
    skip it when its title is falsy or already seen, else keep it. *)
Definition consider (st : run_state) (cand : dict) : result run_state :=
  let title := dict_get cand "title" in
  if negb (truthy title) then Ok st
  else
    seen <- set_contains title (seen_titles st) ;;
    if (seen : bool) then Ok st
    else Ok {| seen_titles := set_add title (seen_titles st);
               candidate_list := candidate_list st ++ [cand];
               errors := errors st |}.

(** A loop whose body may raise. *)
Fixpoint for_each {A S : Type} (body : S -> A -> result S)
    (st : S) (xs : list A) : result S :=
  match xs with
  | [] => Ok st
  | x :: xs' => st' <- body st x ;; for_each body st' xs'
  end.

(** One pass of [main]'s loop over the literals of a file. *)
Definition process_literal (rt : runtime) (st : run_state) (lit : value)
  : result run_state :=
  match lit with
  | VList items =>
      if forallb is_dict items
      then for_each (fun st item =>
                       match item with
                       | VDict d => consider st (normalize_ticket rt d)
                       | _ => Raise AttributeError
                       end) st items
      else Ok st
  | VDict entries =>
      if forallb is_dict (map snd entries)
      then for_each (fun st kv =>
                       match kv with
                       | (k, VDict v) =>
                           let v' := dict_set v (VStr "canonical_id")
                                       (dict_get v "canonical_id" <or> k) in
                           consider st (normalize_ticket rt v')
                       | _ => Raise TypeError
                       end) st entries
      else consider st (normalize_ticket rt entries)
  | _ => Ok st
  end.

Definition process_file (rt : runtime) (st : run_state) (f : file)
  : result run_state :=
  match extract_literals_from_file f with
  | inl message =>
      Ok {| seen_titles := seen_titles st;
            candidate_list := candidate_list st;
            errors := errors st ++ [[(VStr "file", VStr (path f));
                                     (VStr "error", VStr message)]] |}
  | inr literals => for_each (process_literal rt) st literals
  end.

(** The loop of [main] (lines 96-139), given what [glob.glob] returns
    for each pattern.  The result is the state the output file is
    written from; an uncaught exception ends the run before anything
    is written.  The write itself (lines 140-148: [json.dump] of
    [candidate_list] and [errors], then one [print]) is not part of
    the model: [Ok st] says that the loop has ended with [st], not
    that the file is on disk. *)
Definition main (rt : runtime) (glob : string -> list file)
  : result run_state :=
  for_each (process_file rt) initial (flat_map glob PATTERNS).

End ParseLocalTicketFiles.

(* ================================================================= *)
(** ** compare_and_export.py *)

Module CompareAndExport.

Definition REQUIRE_FIELDS : list string := ["REQUIRES"; "PROVIDES"; "PRIORITY"].

(** What [run(cmd)] hands back, as far as the script reads it: the
    return code, and what [json.loads] makes of the captured output. *)
Record completed_process : Type := {
  returncode : Z;
  stdout_json : result value
}.

(** [for item in v] *)
Definition py_iter (v : value) : result (list value) :=
  match v with
  | VList items => Ok items
  | VTuple items => Ok items
  | VDict entries => Ok (map fst entries)
  | VStr s => Ok (map (fun c => VStr (String c "")) (list_ascii_of_string s))
  | _ => Raise TypeError
  end.

(** [v[0]] *)
Definition py_first (v : value) : result value :=
  match v with
  | VList (x :: _) => Ok x
  | VTuple (x :: _) => Ok x
  | VList [] => Raise IndexError
  | VTuple [] => Raise IndexError
  | VStr (String c _) => Ok (VStr (String c ""))
  | VStr EmptyString => Raise IndexError
  | VDict entries => dict_getitem entries (VInt 0)
  | _ => Raise TypeError
  end.

(** [v.get(name)]: only a dict has the method *)
Definition py_get (v : value) (name : string) : result value :=
  match v with
  | VDict d => Ok (dict_get d name)
  | _ => Raise AttributeError
  end.

(** [[item for item in arr if item.get('title') == title]]; every
    item that passes is a dict, and is kept as one. *)
Fixpoint title_matches (title : value) (arr : list value)
  : result (list dict) :=
  match arr with
  | [] => Ok []
  | item :: rest =>
      match item with
      | VDict d =>
          matches <- title_matches title rest ;;
          Ok (if py_eq (dict_get d "title") title then d :: matches
              else matches)
      | _ => Raise AttributeError
      end
  end.

Definition gh_issue_list_by_title (p : completed_process) (title : value)
  : result (list dict) :=
  if negb (returncode p =? 0)%Z then Raise RuntimeError
  else
    arr <- stdout_json p ;;
    items <- py_iter arr ;;
    title_matches title items.

Definition gh_sub_issue_parent (p : completed_process) : result value :=
  if negb (returncode p =? 0)%Z then Ok VNone
  else
    match stdout_json p with
    | Raise _ => Ok VNone
    | Ok obj =>
        if negb (truthy obj) then Ok VNone
        else
          first <- py_first obj ;;
          parent <- py_get first "parent" ;;
          if negb (truthy parent) then Ok VNone
          else py_get parent "number"
    end.

(** [body.upper()]: the method of a string; any other value has no
    attribute [upper]. *)
Definition py_upper (rt : runtime) (v : value) : result string :=
  match v with
  | VStr s => Ok (str_upper rt s)
  | _ => Raise AttributeError
  end.

Definition body_has_required_fields (rt : runtime) (body : value)
  : result bool :=
  ub <- (if truthy body then py_upper rt body else Ok "") ;;
  Ok (forallb (fun f => str_in f ub) REQUIRE_FIELDS).

Definition map_parent_canonical_to_number
    (parent_canonical : value) (issue_map : dict) : result value :=
  if negb (truthy parent_canonical) then Ok VNone
  else if is_int parent_canonical then Ok parent_canonical
  else
    found <- dict_contains parent_canonical issue_map ;;
    if (found : bool) then dict_getitem issue_map parent_canonical
    else Ok VNone.

(** *** The loop of [main] *)

(** The answers of the remote store to the two commands run for one
    candidate: [gh issue list], and [gh sub-issue list n] for the
    number [n] it is asked about. *)
Record responses : Type := {
  issue_list : completed_process;
  sub_issue_list : value -> completed_process
}.

(** The branch the loop body takes for a candidate. *)
Inductive verdict : Type :=
| Missing
| Ambiguous (numbers : list value)
| Correct
| Incomplete (remote_num parent_num : value) (body_ok : bool).

(** How an attempt ends: normally, by [sys.exit], or by an exception
    nobody catches. *)
Inductive outcome (A : Type) : Type :=
| Done (a : A)
| Exit (status : Z)
| Uncaught (e : exn).
Arguments Done {A} a.
Arguments Exit {A} status.
Arguments Uncaught {A} e.

Definition lift {A} (r : result A) : outcome A :=
  match r with
  | Ok a => Done a
  | Raise e => Uncaught e
  end.

Definition and_then {A B} (o : outcome A) (k : A -> outcome B) : outcome B :=
  match o with
  | Done a => k a
  | Exit n => Exit n
  | Uncaught e => Uncaught e
  end.

(** [[m['number'] for m in matches]] *)
Fixpoint numbers_of (matches : list dict) : result (list value) :=
  match matches with
  | [] => Ok []
  | m :: rest =>
      n <- dict_getitem m (VStr "number") ;;
      ns <- numbers_of rest ;;
      Ok (n :: ns)
  end.

(** [(expected is None and actual is None) or (expected == actual)] *)
Definition parent_ok (expected actual : value) : bool :=
  (is_none expected && is_none actual) || py_eq expected actual.

(** The checks on the single remote ticket that carries the title. *)
Definition check_single (rt : runtime) (expected_parent_num : value)
    (remote : dict) (w : responses) : outcome verdict :=
  let remote_num := dict_get remote "number" in
  let remote_body := dict_get remote "body" <or> VStr "" in
  let parent_num :=
    try_except (gh_sub_issue_parent (sub_issue_list w remote_num)) VNone in
  let p_ok := parent_ok expected_parent_num parent_num in
  and_then (lift (body_has_required_fields rt remote_body)) (fun body_ok =>
  if p_ok && body_ok then Done Correct
  else Done (Incomplete remote_num parent_num body_ok)).

(** Everything the loop body decides before it touches its lists: the
    expected parent number and the branch taken. *)
Definition reconcile (rt : runtime) (issues_map c : dict) (w : responses)
  : outcome (value * verdict) :=
  let title := dict_get c "title" in
  let parent_can := dict_get c "parent_canonical" in
  and_then (lift (map_parent_canonical_to_number parent_can issues_map))
    (fun expected_parent_num =>
  match gh_issue_list_by_title (issue_list w) title with
  | Raise _ => Exit 1
  | Ok matches =>
      match matches with
      | [] => Done (expected_parent_num, Missing)
      | remote :: _ =>
          if Nat.ltb 1 (List.length matches)
          then and_then (lift (numbers_of matches)) (fun ns =>
               Done (expected_parent_num, Ambiguous ns))
          else and_then (check_single rt expected_parent_num remote w)
                 (fun v =>
               Done (expected_parent_num, v))
      end
  end).

(** The record every exporting branch appends. *)
Definition export_record (c : dict) (expected_parent_num : value) : dict :=
  [ (VStr "issue_number", VNone);
    (VStr "canonical_id", dict_get c "canonical_id");
    (VStr "title", dict_get c "title");
    (VStr "body", dict_get c "body" <or> VStr "");
    (VStr "labels", dict_get c "labels" <or> VList []);
    (VStr "state", VStr "planned");
    (VStr "parent_issue_number", expected_parent_num);
    (VStr "requires", dict_get c "requires" <or> VStr "");
    (VStr "provides", dict_get c "provides" <or> VStr "");
    (VStr "points", dict_get c "points" <or> VNone);
    (VStr "priority", dict_get c "priority" <or> VNone);
    (VStr "created_at", VNone);
    (VStr "url", VNone) ].

Definition notes (remote_num parent_num : value) (body_ok : bool) : value :=
  VDict [ (VStr "remote_issue_number", remote_num);
          (VStr "remote_parent_number", parent_num);
          (VStr "body_has_required_fields", VBool body_ok) ].

Record state : Type := {
  exported : list dict;
  scanned : nat;
  fully_correct : nat;
  ambiguous : list dict
}.

Definition start : state :=
  {| exported := []; scanned := 0; fully_correct := 0; ambiguous := [] |}.

(** What the taken branch does to the lists and counters ([scanned]
    was incremented on entry). *)
Definition record (st : state) (c : dict) (expected_parent_num : value)
    (v : verdict) : state :=
  match v with
  | Missing =>
      {| exported := exported st ++ [export_record c expected_parent_num];
         scanned := scanned st;
         fully_correct := fully_correct st;
         ambiguous := ambiguous st |}
  | Ambiguous ns =>
      {| exported := exported st ++ [export_record c expected_parent_num];
         scanned := scanned st;
         fully_correct := fully_correct st;
         ambiguous := ambiguous st
                      ++ [[(VStr "title", dict_get c "title");
                           (VStr "matches", VList ns)]] |}
  | Correct =>
      {| exported := exported st;
         scanned := scanned st;
         fully_correct := S (fully_correct st);
         ambiguous := ambiguous st |}
  | Incomplete remote_num parent_num body_ok =>
      {| exported := exported st
                     ++ [export_record c expected_parent_num
                         ++ [(VStr "notes",
                              notes remote_num parent_num body_ok)]];
         scanned := scanned st;
         fully_correct := fully_correct st;
         ambiguous := ambiguous st |}
  end.

Definition loop_body (rt : runtime) (issues_map : dict) (st : state)
    (c : dict) (w : responses) : outcome state :=
  let st1 := {| exported := exported st;
                scanned := S (scanned st);
                fully_correct := fully_correct st;
                ambiguous := ambiguous st |} in
  and_then (reconcile rt issues_map c w) (fun r =>
  Done (record st1 c (fst r) (snd r))).

(** The loop over the candidates; [gh i] are the remote store's
    answers while the candidate scanned after [i] others is handled. *)
Fixpoint loop (rt : runtime) (issues_map : dict) (gh : nat -> responses)
    (st : state) (candidates : list dict) : outcome state :=
  match candidates with
  | [] => Done st
  | c :: rest =>
      and_then (loop_body rt issues_map st c (gh (scanned st))) (fun st' =>
      loop rt issues_map gh st' rest)
  end.

(** What a run that reaches its end leaves behind: the list written to
    [exported_issues.json], and the figures of the summary line. *)
Record report : Type := {
  written : list dict;
  n_scanned : nat;
  n_fully_correct : nat;
  n_exported : nat;
  n_ambiguous : nat;
  ambiguous_titles : list dict
}.

(** [main], from the loaded candidates and issue map on, up to the
    write: [Done r] says that the loop has ended and [r] is what line
    190 hands to [json.dump] and line 191 prints.  The write itself
    is not part of the model, so [Done r] does not say that
    [json.dump] returns.  Nothing is written unless the loop ends
    normally. *)
Definition main (rt : runtime) (candidates : list dict) (issues_map : dict)
    (gh : nat -> responses) : outcome report :=
  and_then (loop rt issues_map gh start candidates) (fun st =>
  Done {| written := exported st;
          n_scanned := scanned st;
          n_fully_correct := fully_correct st;
          n_exported := List.length (exported st);
          n_ambiguous := List.length (ambiguous st);
          ambiguous_titles := ambiguous st |}).

(** *** The head of [main]: the two input files *)

(** The report of a loop that ended in [st]. *)
Definition finish (st : state) : report :=
  {| written := exported st;
     n_scanned := scanned st;
     n_fully_correct := fully_correct st;
     n_exported := List.length (exported st);
     n_ambiguous := List.length (ambiguous st);
     ambiguous_titles := ambiguous st |}.

(** The loop over what [json.load] returned for the candidates: an
    entry that is no dict has no [get], and the run stops there. *)
Fixpoint loop_loaded (rt : runtime) (issues_map : dict)
    (gh : nat -> responses) (st : state) (candidates : list value)
  : outcome state :=
  match candidates with
  | [] => Done st
  | VDict c :: rest =>
      and_then (loop_body rt issues_map st c (gh (scanned st))) (fun st' =>
      loop_loaded rt issues_map gh st' rest)
  | _ :: _ => Uncaught AttributeError
  end.

(** [main] from its first line: [candidates_file] is what
    [canonical_candidates.json] loads to, if the file exists, and
    [issue_map_file] what [issue_map.json] loads to, if it exists.
    As with [main], the model ends where the write begins. *)
Definition main_entry (rt : runtime) (candidates_file : option value)
    (issue_map_file : option dict) (gh : nat -> responses) : outcome report :=
  match candidates_file with
  | None => Exit 1
  | Some data =>
      and_then (lift match data with
                     | VDict d =>
                         Ok match dict_find (VStr "candidates") d with
                            | Some v => v
                            | None => VList []
                            end
                     | _ => Raise AttributeError
                     end) (fun candidates =>
      let issues_map := match issue_map_file with
                        | Some m => m
                        | None => []
                        end in
      and_then (lift (py_iter candidates)) (fun cs =>
      and_then (loop_loaded rt issues_map gh start cs) (fun st =>
      Done (finish st))))
  end.

End CompareAndExport.

(* ================================================================= *)
(** ** Specification vocabulary: the extraction run *)

Module ParseSpec.
Import ParseLocalTicketFiles.

(** A field is present under an alias when the record holds a truthy
    value there ([None], [''], [0] and empty containers are what the
    [or] chains of [normalize_ticket] pass over); the first present
    alias of a list is the first such value. *)
Definition first_present (d : dict) (aliases : list string) : option value :=
  find truthy (map (dict_get d) aliases).

Definition title_of (c : dict) : value := dict_get c "title".

(** A value [v] of a mapping after [v['canonical_id'] =
    v.get('canonical_id') or k]. *)
Definition keyed_record (k : value) (v : dict) : dict :=
  dict_set v (VStr "canonical_id") (dict_get v "canonical_id" <or> k).

(** The records [main] normalises for one literal, in order: the items
    of a list of dicts; the values of a dict whose values are all
    dicts, each keyed as above; or else the dict itself. *)
Definition records_of_literal (lit : value) : list dict :=
  match lit with
  | VList items =>
      if forallb is_dict items
      then flat_map (fun i => match i with VDict d => [d] | _ => [] end) items
      else []
  | VDict entries =>
      if forallb is_dict (map snd entries)
      then flat_map (fun kv => match kv with
                               | (k, VDict v) => [keyed_record k v]
                               | _ => []
                               end) entries
      else [entries]
  | _ => []
  end.

Definition records_of_file (f : file) : list dict :=
  match extract_literals_from_file f with
  | inl _ => []
  | inr literals => flat_map records_of_literal literals
  end.

(** Every normalised record of a run, in the order [main] meets them. *)
Definition stream (rt : runtime) (glob : string -> list file) : list dict :=
  map (normalize_ticket rt) (flat_map records_of_file (flat_map glob PATTERNS)).

(** First occurrence wins, on titles, starting from a set of titles
    already seen. *)
Fixpoint first_wins (seen : pyset) (cands : list dict) : list dict :=
  match cands with
  | [] => []
  | c :: rest =>
      if negb (truthy (title_of c)) || set_mem (title_of c) seen
      then first_wins seen rest
      else c :: first_wins (set_add (title_of c) seen) rest
  end.

(** The part of the run state that decides the candidates, and what
    [consider] does to it. *)
Definition tickets (st : run_state) : pyset * list dict :=
  (seen_titles st, candidate_list st).

Definition keep (sc : pyset * list dict) (c : dict) : pyset * list dict :=
  if negb (truthy (title_of c)) || set_mem (title_of c) (fst sc)
  then sc
  else (set_add (title_of c) (fst sc), snd sc ++ [c]).

(** The ticket's title is a string, as the data model has it. *)
Definition str_titled (c : dict) : Prop := is_str (title_of c) = true.

(** *** Labels *)

(** [c] occurs in [s]. *)
Fixpoint has_char (c : ascii) (s : string) : bool :=
  match s with
  | EmptyString => false
  | String c' s' => Ascii.eqb c' c || has_char c s'
  end.

(** A label as the normaliser leaves it: not empty, free of commas,
    and with nothing at its ends for [strip] to remove. *)
Definition clean_label (rt : runtime) (l : string) : Prop :=
  l <> ""%string /\ has_char ","%char l = false /\ str_strip rt l = l.

(** What [strip] does whatever the table of white space: it returns a
    stretch of its argument, and it leaves what it returned as it
    is. *)
Definition strip_trims (rt : runtime) : Prop :=
  (forall s, exists pre post,
     s = (pre ++ str_strip rt s ++ post)%string)
  /\ (forall s, str_strip rt (str_strip rt s) = str_strip rt s).

(** [','.join(pieces)] *)
Fixpoint join_comma (pieces : list string) : string :=
  match pieces with
  | [] => ""
  | [piece] => piece
  | piece :: rest => (piece ++ String ","%char (join_comma rest))%string
  end.

(** *** Neutral values and failures *)

(** Every key [normalize_ticket] reads. *)
Definition all_aliases : list string :=
  ["canonical_id"; "id"; "key"; "ticket_id"; "title"; "name"; "summary";
   "body"; "description"; "desc"; "labels"; "tags"; "parent"; "parent_id";
   "parent_key"; "points"; "estimate"; "priority"; "requires"; "REQUIRES";
   "provides"; "PROVIDES"].

(** The ticket of a record that has none of them. *)
Definition neutral_ticket : dict :=
  [ (VStr "canonical_id", VNone);
    (VStr "title", VStr "");
    (VStr "body", VStr "");
    (VStr "labels", VList []);
    (VStr "parent_canonical", VNone);
    (VStr "points", VNone);
    (VStr "priority", VNone);
    (VStr "requires", VStr "");
    (VStr "provides", VStr "") ].

(** A title that [seen_titles] cannot take: truthy and unhashable. *)
Definition bad_title (c : dict) : Prop :=
  truthy (title_of c) = true /\ hashable (title_of c) = false.

(** The entries of [errors] that a sequence of visited files leaves. *)
Definition error_records (files : list file) : list dict :=
  flat_map (fun f => match parsed f with
                     | inl message => [[(VStr "file", VStr (path f));
                                        (VStr "error", VStr message)]]
                     | inr _ => []
                     end) files.

(** The loop of [main] over the files it visits, in order. *)
Definition run (rt : runtime) (files : list file) : result run_state :=
  for_each (process_file rt) initial files.

(** The seen titles are the titles of the candidates, in order. *)
Definition synced (st : run_state) : Prop :=
  seen_titles st = map title_of (candidate_list st).

(** [st'] has the candidates of [st], and maybe more after them. *)
Definition extends (st st' : run_state) : Prop :=
  exists more, candidate_list st' = candidate_list st ++ more.

(** A pass that ends normally leaves [errors] alone, keeps the
    candidates it had, and keeps the seen titles in step with them. *)
Definition gentle (st st' : run_state) : Prop :=
  errors st' = errors st /\ extends st st' /\ (synced st -> synced st').

(** A statement that holds the literal [v]. *)
Definition holds_literal (v : value) (node : stmt) : Prop :=
  exists cls, cls <> EOther
              /\ (node = Assign cls (Ok v) \/ node = Expr cls (Ok v)).

(** *** Sample data *)

(** A record with an empty [title] and two more aliases. *)
Definition login_record : dict :=
  [ (VStr "title", VStr "");
    (VStr "name", VStr "Fix login");
    (VStr "summary", VStr "Users cannot log in") ].

(** A mapping with one record and one stray string. *)
Definition mixed_mapping : value :=
  VDict [ (VStr "SEC-001", VDict [(VStr "title", VStr "Rotate keys")]);
          (VStr "note", VStr "see the wiki") ].

(** A workspace with one file that assigns one literal; the file
    matches the first and the last of [PATTERNS]. *)
Definition one_file (lit : value) (pattern : string) : list file :=
  if String.eqb pattern "create_*.py" || String.eqb pattern "*create*.py"
  then [{| path := "create_tickets.py"; parsed := inr [Assign EDict (Ok lit)] |}]
  else [].

(** Two files that share a title, each matched by two patterns. *)
Definition two_files (pattern : string) : list file :=
  if String.eqb pattern "create_*.py" || String.eqb pattern "*create*.py"
  then [ {| path := "create_a.py";
            parsed := inr [Assign EList (Ok (VList [
              VDict [(VStr "title", VStr "Add cache"); (VStr "id", VStr "A-1")];
              VDict [(VStr "body", VStr "no title here")] ]))] |};
         {| path := "create_b.py";
            parsed := inr [Assign EList (Ok (VList [
              VDict [(VStr "name", VStr "Add cache"); (VStr "id", VStr "B-7")];
              VDict [(VStr "title", VStr "Add index")] ]))] |} ]
  else [].

(** A record whose labels are one untidy string under [tags]. *)
Definition tagged_record : dict :=
  [ (VStr "title", VStr "Rotate keys");
    (VStr "tags", VStr " api , , backend,ui ") ].

(** A record whose labels are one tidy string. *)
Definition labelled_record : dict :=
  [ (VStr "labels", VStr "api,backend"); (VStr "title", VStr "Rotate keys") ].

(** A record with nothing the normaliser reads. *)
Definition stray_record : dict :=
  [ (VStr "title", VStr ""); (VStr "owner", VStr "ops"); (VStr "points", VInt 0) ].

(** A record that estimates 2.5 points. *)
Definition half_points_record : dict :=
  [ (VStr "title", VStr "Add cache");
    (VStr "estimate", VFloat (S754_finite false 5 (-1))) ].

(** A file with an assignment of a list, a call, a dict that does not
    evaluate, and a bare tuple. *)
Definition mixed_file : file :=
  {| path := "create_mixed.py";
     parsed := inr [ Assign EList (Ok (VList [VDict tagged_record]));
                     Expr EOther (Raise ValueError);
                     Assign EDict (Raise ValueError);
                     OtherStmt;
                     Expr ETuple (Ok (VTuple [VInt 1; VInt 2])) ] |}.

Definition broken_file : file :=
  {| path := "create_broken.py"; parsed := inl "invalid syntax" |}.

(** A workspace with both, each matched by two patterns. *)
Definition broken_workspace (pattern : string) : list file :=
  if String.eqb pattern "create_*.py" || String.eqb pattern "*create*.py"
  then [broken_file; mixed_file]
  else [].

(** A workspace with one file whose second ticket is titled by a list. *)
Definition list_titled_workspace (pattern : string) : list file :=
  if String.eqb pattern "create_*.py"
  then [ {| path := "create_odd.py";
            parsed := inr [Assign EList (Ok (VList [
              VDict tagged_record;
              VDict [(VStr "title", VList [VStr "Add"; VStr "cache"])] ]))] |} ]
  else [].

End ParseSpec.

(* ================================================================= *)
(** ** Specification vocabulary: the reconciler *)

Module CompareSpec.
Import CompareAndExport.

(** [marker] occurs in [body] up to case: it is a stretch of what
    [body.upper()] returns. *)
Definition contains_ci (rt : runtime) (marker body : string) : Prop :=
  exists pre post : string,
    str_upper rt body = (pre ++ marker ++ post)%string.

(** All of [REQUIRE_FIELDS] occur, up to case, in a [body] that is not
    empty (an empty body is searched as it is, and holds nothing). *)
Definition all_markers (rt : runtime) (body : string) : Prop :=
  body <> ""%string
  /\ contains_ci rt "REQUIRES" body /\ contains_ci rt "PROVIDES" body
  /\ contains_ci rt "PRIORITY" body.

(** A remote ticket as [gh issue list --json number,title,body] lists
    it: a dict that has a [number]. *)
Definition remote_ticket (item : value) : bool :=
  match item with
  | VDict d =>
      match dict_find (VStr "number") d with
      | Some _ => true
      | None => false
      end
  | _ => false
  end.

(** The remote ticket's title is exactly the string [t]. *)
Definition titled (t : string) (item : value) : bool :=
  match item with
  | VDict d =>
      match dict_get d "title" with
      | VStr u => String.eqb u t
      | _ => false
      end
  | _ => false
  end.

(** Its number. *)
Definition number_of (item : value) : value :=
  match item with
  | VDict d => dict_get d "number"
  | _ => VNone
  end.

(** The dicts among [items], in order. *)
Definition as_dicts (items : list value) : list dict :=
  flat_map (fun i => match i with VDict d => [d] | _ => [] end) items.

(** The listing command succeeded and printed the tickets [arr]. *)
Definition snapshot (w : responses) (arr : list value) : Prop :=
  returncode (issue_list w) = 0%Z
  /\ stdout_json (issue_list w) = Ok (VList arr)
  /\ forallb remote_ticket arr = true.

(** The listing command failed, or printed what is not JSON. *)
Definition query_fails (p : completed_process) : Prop :=
  returncode p <> 0%Z \/ exists e, stdout_json p = Raise e.

(** [parent_ok], as a proposition. *)
Definition same_parent (expected actual : value) : Prop :=
  (expected = VNone /\ actual = VNone) \/ py_eq expected actual = true.

(** The thirteen fields of an export record; [notes] is not one. *)
Definition export_fields : list string :=
  ["issue_number"; "canonical_id"; "title"; "body"; "labels"; "state";
   "parent_issue_number"; "requires"; "provides"; "points"; "priority";
   "created_at"; "url"].

(** The parent lookup failed: the command failed, or printed what is
    not JSON, or what it printed made [gh_sub_issue_parent] raise. *)
Definition lookup_fails (p : completed_process) : Prop :=
  returncode p <> 0%Z
  \/ (exists x, stdout_json p = Raise x)
  \/ (exists x, gh_sub_issue_parent p = Raise x).

(** The remote ticket's body is text (or absent, which reads as ['']). *)
Definition string_body (item : value) : bool :=
  match item with
  | VDict d => is_str (dict_get d "body" <or> VStr "")
  | _ => false
  end.

(** The remote store answers the listing properly, whatever it does
    with parent lookups. *)
Definition lists_properly (w : responses) : Prop :=
  exists arr, snapshot w arr /\ forallb string_body arr = true.

(** Both at once, for a ticket that matched. *)
Definition proper (d : dict) : Prop :=
  remote_ticket (VDict d) = true /\ string_body (VDict d) = true.

(** The relation between the counters that every pass keeps. *)
Definition balanced (st : state) : Prop :=
  scanned st = fully_correct st + List.length (exported st)
  /\ List.length (ambiguous st) <= List.length (exported st).

(** A candidate goes to the correct counter or to the export list,
    never both, never neither. *)
Definition one_of_two (st st' : state) : Prop :=
  (fully_correct st' = S (fully_correct st) /\ exported st' = exported st
   /\ ambiguous st' = ambiguous st)
  \/ (fully_correct st' = fully_correct st
      /\ (exists r, exported st' = exported st ++ [r])
      /\ List.length (ambiguous st') <= S (List.length (ambiguous st))).

(** What [json.loads] gave for the listing cannot be read as a list
    of tickets: it is a scalar, or a list with an item that is no
    dict. *)
Definition malformed_listing (v : value) : bool :=
  match v with
  | VList arr => negb (forallb is_dict arr)
  | VNone | VBool _ | VInt _ | VFloat _ => true
  | _ => false
  end.

(** A parent reference that cannot be looked up: truthy, no integer,
    and unhashable. *)
Definition bad_parent (p : value) : Prop :=
  truthy p = true /\ is_int p = false /\ hashable p = false.

(** The listing command succeeded and printed no ticket. *)
Definition lists_nothing (w : responses) : Prop :=
  returncode (issue_list w) = 0%Z /\ stdout_json (issue_list w) = Ok (VList []).

(** What every exported record says, and where it comes from. *)
Definition planned_from (candidates : list dict) (rec : dict) : Prop :=
  dict_get rec "state" = VStr "planned"
  /\ dict_get rec "issue_number" = VNone
  /\ exists c, In c candidates
               /\ dict_get rec "title" = dict_get c "title"
               /\ dict_get rec "canonical_id" = dict_get c "canonical_id".

(** [rec] is the plain export record of the candidate [c]: the
    thirteen fields, with the parent number the issue map gives. *)
Definition plain_export (issues_map c rec : dict) : Prop :=
  exists e,
    map_parent_canonical_to_number (dict_get c "parent_canonical") issues_map
      = Ok e
    /\ rec = export_record c e.

(** *** Sample data *)

Definition sample_map : dict := [(VStr "CORE-1", VInt 42)].

Definition cache_candidate : dict :=
  [ (VStr "canonical_id", VStr "CORE-7");
    (VStr "title", VStr "Add caching layer");
    (VStr "body", VStr "Cache the hot paths");
    (VStr "parent_canonical", VStr "CORE-1") ].

Definition index_candidate : dict :=
  [ (VStr "title", VStr "Add index"); (VStr "parent_canonical", VNone) ].

Definition remote_cache (number : Z) (body : string) : value :=
  VDict [ (VStr "number", VInt number);
          (VStr "title", VStr "Add caching layer");
          (VStr "body", VStr body) ].

Definition good_body : string :=
  "**Requires:** storage  **PROVIDES:** cache  **priority:** high".

Definition listing (arr : list value) : completed_process :=
  {| returncode := 0; stdout_json := Ok (VList arr) |}.

Definition parent_is (number : Z) : completed_process :=
  {| returncode := 0;
     stdout_json :=
       Ok (VList [VDict [(VStr "parent",
                          VDict [(VStr "number", VInt number)])]]) |}.

Definition failed : completed_process :=
  {| returncode := 1; stdout_json := Raise ValueError |}.

(** One remote ticket with the title, complete, under parent 42. *)
Definition one_good : responses :=
  {| issue_list := listing [remote_cache 11 good_body];
     sub_issue_list := fun _ => parent_is 42 |}.

(** The same ticket under parent 7. *)
Definition one_misparented : responses :=
  {| issue_list := listing [remote_cache 11 good_body];
     sub_issue_list := fun _ => parent_is 7 |}.

(** Two remote tickets with the title; the first alone would pass. *)
Definition two_same : responses :=
  {| issue_list := listing [remote_cache 11 good_body; remote_cache 12 ""];
     sub_issue_list := fun _ => parent_is 42 |}.

(** No remote ticket at all, and every parent lookup failing. *)
Definition none_listed : responses :=
  {| issue_list := listing []; sub_issue_list := fun _ => failed |}.

(** The listing command itself failing. *)
Definition unavailable : responses :=
  {| issue_list := failed; sub_issue_list := fun _ => failed |}.

(** A run over three candidates: the store answers properly for the
    first two and is unavailable for the third. *)
Definition flaky (i : nat) : responses :=
  match i with
  | 0 => one_good
  | 1 => none_listed
  | _ => unavailable
  end.

(** A run where the listings arrive and every parent lookup fails. *)
Definition no_lookups (i : nat) : responses :=
  {| issue_list := listing [remote_cache 11 good_body];
     sub_issue_list := fun _ => failed |}.

(** A run that meets each branch of the loop once. *)
Definition flaky_free (i : nat) : responses :=
  match i with
  | 0 => one_good
  | 1 => none_listed
  | 2 => two_same
  | _ => one_misparented
  end.

Definition four_candidates : list dict :=
  [cache_candidate; index_candidate; cache_candidate; cache_candidate].

(** A remote ticket with the title and no number. *)
Definition numberless : value :=
  VDict [ (VStr "title", VStr "Add caching layer"); (VStr "body", VStr "") ].

Definition two_numberless : responses :=
  {| issue_list := listing [remote_cache 11 good_body; numberless];
     sub_issue_list := fun _ => parent_is 42 |}.

(** A listing command that prints an error string inside a list. *)
Definition garbled : responses :=
  {| issue_list := listing [VStr "rate limit exceeded"];
     sub_issue_list := fun _ => failed |}.

(** The good ticket, with its parent lookup failing. *)
Definition one_unlinked : responses :=
  {| issue_list := listing [remote_cache 11 good_body];
     sub_issue_list := fun _ => failed |}.

(** A candidate whose parent reference is a list. *)
Definition list_parented : dict :=
  [ (VStr "title", VStr "Add caching layer");
    (VStr "parent_canonical", VList [VStr "CORE-1"]) ].

(** A store that lists nothing, ever. *)
Definition empty_store (i : nat) : responses := none_listed.

(** What [canonical_candidates.json] loads to, for two candidates. *)
Definition loaded_file : value :=
  VDict [ (VStr "workspace", VStr "/work");
          (VStr "candidates_count", VInt 2);
          (VStr "candidates", VList (map VDict [cache_candidate; index_candidate]));
          (VStr "errors", VList []) ].

End CompareSpec.

(* ================================================================= *)
(** ** Facts about Python values *)

Module PyFacts.

Lemma py_eq_str_l (s : string) (v : value) :
  py_eq (VStr s) v = true <-> v = VStr s.
Proof.
  destruct v; simpl; try (split; [discriminate | discriminate]).
  rewrite String.eqb_eq. split; [intros -> | intros [= ->]]; reflexivity.
Qed.

(** Against a string, [==] is equality of strings, letter for letter. *)
Lemma py_eq_str_r (v : value) (s : string) :
  py_eq v (VStr s) = true <-> v = VStr s.
Proof.
  destruct v as [|b|n|f|s'|xs|xs|es]; simpl;
    try (split; [discriminate | discriminate]).
  rewrite String.eqb_eq. split; [intros -> | intros [= ->]]; reflexivity.
Qed.

(** Between integers, [==] is equality of integers. *)
Lemma py_eq_int (a b : Z) : py_eq (VInt a) (VInt b) = true <-> a = b.
Proof. simpl. apply Z.eqb_eq. Qed.

Lemma py_or_truthy (a b : value) : truthy a = true -> a <or> b = a.
Proof. unfold py_or. intros ->. reflexivity. Qed.

Lemma py_or_falsy (a b : value) : truthy a = false -> a <or> b = b.
Proof. unfold py_or. intros ->. reflexivity. Qed.

(** A chain [a or b or ... or None] is [None] or truthy. *)
Lemma py_or_none (a : value) : a <or> VNone = VNone \/ truthy (a <or> VNone) = true.
Proof.
  unfold py_or. destruct (truthy a) eqn:E; [right; exact E | left; reflexivity].
Qed.

Lemma set_mem_str (t : string) (s : pyset) :
  set_mem (VStr t) s = true <-> In (VStr t) s.
Proof.
  unfold set_mem. rewrite existsb_exists. split.
  - intros [x [Hin Heq]]. apply py_eq_str_l in Heq. subst x. exact Hin.
  - intros Hin. exists (VStr t). split; [exact Hin | apply py_eq_str_l; reflexivity].
Qed.

(** After [d[name] = x], [d.get(name)] is [x]. *)
Lemma dict_get_set_same (d : dict) (name : string) (x : value) :
  dict_get (dict_set d (VStr name) x) name = x.
Proof.
  unfold dict_get. induction d as [|[k v] d IH]; simpl.
  - rewrite String.eqb_refl. reflexivity.
  - destruct k; simpl; try exact IH.
    destruct (String.eqb name s) eqn:E; simpl; rewrite E; [reflexivity | exact IH].
Qed.

(** ... and no other name is affected. *)
Lemma dict_get_set_other (d : dict) (name other : string) (x : value) :
  other <> name ->
  dict_get (dict_set d (VStr name) x) other = dict_get d other.
Proof.
  intros Hne. unfold dict_get. induction d as [|[k v] d IH]; simpl.
  - apply String.eqb_neq in Hne. rewrite Hne. reflexivity.
  - destruct k; simpl; try exact IH.
    destruct (String.eqb name s) eqn:E; simpl.
    + apply String.eqb_eq in E. subst s.
      apply String.eqb_neq in Hne. rewrite Hne. reflexivity.
    + destruct (String.eqb other s); [reflexivity | exact IH].
Qed.

End PyFacts.

(* ================================================================= *)
(** ** The normaliser and the extraction run *)

Module ParseFacts.
Import PyFacts ParseLocalTicketFiles ParseSpec.

(** *** First occurrence wins *)

Section Deduplication.

Lemma set_add_str_In (x : value) (t : string) (seen : pyset) :
  In x (set_add (VStr t) seen) <-> x = VStr t \/ In x seen.
Proof.
  unfold set_add. destruct (set_mem (VStr t) seen) eqn:E.
  - apply set_mem_str in E. split; [auto | intros [-> | H]; assumption].
  - rewrite in_app_iff. simpl. split.
    + intros [H | [H | []]]; auto.
    + intros [H | H]; auto.
Qed.

Lemma set_mem_str_false (t : string) (seen : pyset) :
  set_mem (VStr t) seen = false <-> ~ In (VStr t) seen.
Proof.
  rewrite <- set_mem_str. destruct (set_mem (VStr t) seen); split; intros;
    congruence.
Qed.

Lemma py_eq_str_false (a b : string) :
  py_eq (VStr a) (VStr b) = false <-> VStr a <> VStr b.
Proof.
  simpl. rewrite String.eqb_neq. split; intros H E; apply H; congruence.
Qed.

(** Split the hypothesis that a stream [c0 :: cs] is string-titled,
    and name the title of its head. *)
Ltac string_head Hall c0 t0 Et Hcs :=
  let H0 := fresh "H0" in
  inversion Hall as [|? ? H0 Hcs]; subst; unfold str_titled in H0;
  destruct (title_of c0) as [| | | |t0| | |] eqn:Et; try discriminate.

Lemma fold_keep_first_wins (cs : list dict) : forall seen cl,
  snd (fold_left keep cs (seen, cl)) = cl ++ first_wins seen cs.
Proof.
  induction cs as [|c cs IH]; intros seen cl; simpl.
  - now rewrite app_nil_r.
  - unfold keep at 2. simpl fst. simpl snd.
    destruct (negb (truthy (title_of c)) || set_mem (title_of c) seen).
    + apply IH.
    + rewrite IH, <- app_assoc. reflexivity.
Qed.

Lemma first_wins_In (cs : list dict) : forall seen c,
  Forall str_titled cs ->
  In c (first_wins seen cs) ->
  In c cs /\ truthy (title_of c) = true /\ ~ In (title_of c) seen.
Proof.
  induction cs as [|c0 cs IH]; intros seen c Hall Hin; simpl in *; [contradiction|].
  string_head Hall c0 t0 Et Hcs.
  destruct (negb (truthy (VStr t0))) eqn:Ef; simpl in Hin.
  - destruct (IH _ _ Hcs Hin) as [? [? ?]]. auto.
  - destruct (set_mem (VStr t0) seen) eqn:Em.
    + destruct (IH _ _ Hcs Hin) as [? [? ?]]. auto.
    + destruct Hin as [<- | Hin].
      * rewrite Et. repeat split; auto.
        -- now apply negb_false_iff in Ef.
        -- now apply set_mem_str_false.
      * destruct (IH _ _ Hcs Hin) as [? [? Hn]]. repeat split; auto.
        intro Hs. apply Hn. apply set_add_str_In. now right.
Qed.

Lemma first_wins_NoDup (cs : list dict) : forall seen,
  Forall str_titled cs -> NoDup (map title_of (first_wins seen cs)).
Proof.
  induction cs as [|c0 cs IH]; intros seen Hall; simpl; [constructor|].
  string_head Hall c0 t0 Et Hcs.
  destruct (negb (truthy (VStr t0)) || set_mem (VStr t0) seen); [now apply IH|].
  simpl. constructor; [|now apply IH].
  rewrite Et, in_map_iff. intros [c [Hc Hin]].
  destruct (first_wins_In _ _ _ Hcs Hin) as [_ [_ Hn]].
  apply Hn. rewrite Hc. apply set_add_str_In. now left.
Qed.

Lemma first_wins_covers (cs : list dict) : forall seen c,
  Forall str_titled cs ->
  In c cs -> truthy (title_of c) = true -> ~ In (title_of c) seen ->
  exists c', In c' (first_wins seen cs) /\ title_of c' = title_of c.
Proof.
  induction cs as [|c0 cs IH]; intros seen c Hall Hin Ht Hn; simpl in *;
    [contradiction|].
  string_head Hall c0 t0 Et Hcs.
  destruct (negb (truthy (VStr t0))) eqn:Ef; simpl.
  - destruct Hin as [<- | Hin].
    + rewrite Et in Ht. apply negb_true_iff in Ef. congruence.
    + now apply IH.
  - destruct (set_mem (VStr t0) seen) eqn:Em.
    + destruct Hin as [<- | Hin].
      * apply set_mem_str in Em. rewrite Et in Hn. contradiction.
      * now apply IH.
    + destruct Hin as [<- | Hin]; [exists c0; split; [now left | reflexivity]|].
      assert (Hc : str_titled c)
        by (rewrite Forall_forall in Hcs; now apply Hcs).
      unfold str_titled in Hc.
      destruct (title_of c) as [| | | |t| | |] eqn:Etc; try discriminate.
      destruct (String.eqb t t0) eqn:E.
      * apply String.eqb_eq in E. subst t. exists c0.
        split; [now left | congruence].
      * apply String.eqb_neq in E.
        destruct (IH (set_add (VStr t0) seen) c Hcs Hin) as [c' [Hc' Ht']].
        -- now rewrite Etc.
        -- rewrite Etc, set_add_str_In. intros [[= ->] | H]; auto.
        -- exists c'. split; [now right | congruence].
Qed.

Lemma first_wins_is_first (cs : list dict) : forall seen c',
  Forall str_titled cs ->
  In c' (first_wins seen cs) ->
  find (fun c => py_eq (title_of c) (title_of c')) cs = Some c'.
Proof.
  induction cs as [|c0 cs IH]; intros seen c' Hall Hin; simpl in *;
    [contradiction|].
  inversion Hall as [|? ? H0 Hcs]; subst. unfold str_titled in H0.
  assert (Hskip : forall seen',
             In c' (first_wins seen' cs) -> title_of c0 <> title_of c' ->
             (if py_eq (title_of c0) (title_of c')
              then Some c0
              else find (fun c => py_eq (title_of c) (title_of c')) cs)
             = Some c').
  { intros seen' Hin' Hne.
    destruct (first_wins_In _ _ _ Hcs Hin') as [Hi _].
    rewrite Forall_forall in Hcs. pose proof (Hcs _ Hi) as Hc'.
    unfold str_titled in H0, Hc'.
    destruct (title_of c0) as [| | | |t0| | |]; try discriminate.
    destruct (title_of c') as [| | | |t'| | |] eqn:Et'; try discriminate.
    apply py_eq_str_false in Hne. rewrite Hne.
    rewrite <- Et'. apply (IH seen'); [now apply Forall_forall | exact Hin']. }
  destruct (title_of c0) as [| | | |t0| | |] eqn:Et; try discriminate.
  destruct (negb (truthy (VStr t0))) eqn:Ef; simpl in Hin.
  - apply (Hskip seen); [exact Hin|].
    destruct (first_wins_In _ _ _ Hcs Hin) as [_ [Ht _]].
    apply negb_true_iff in Ef. intros E. rewrite <- E in Ht. congruence.
  - destruct (set_mem (VStr t0) seen) eqn:Em.
    + apply (Hskip seen); [exact Hin|].
      destruct (first_wins_In _ _ _ Hcs Hin) as [_ [_ Hn]].
      apply set_mem_str in Em. intros E. rewrite <- E in Hn. contradiction.
    + destruct Hin as [<- | Hin].
      * rewrite Et. simpl. now rewrite String.eqb_refl.
      * apply (Hskip (set_add (VStr t0) seen)); [exact Hin|].
        destruct (first_wins_In _ _ _ Hcs Hin) as [_ [_ Hn]].
        intros E. apply Hn. rewrite <- E. apply set_add_str_In. now left.
Qed.

End Deduplication.

Section Normaliser.

Variable rt : runtime.

Lemma normalize_title (d : dict) :
  title_of (normalize_ticket rt d) =
    dict_get d "title" <or> dict_get d "name" <or> dict_get d "summary"
      <or> VStr "".
Proof. reflexivity. Qed.

Lemma normalize_points_field (d : dict) :
  dict_get (normalize_ticket rt d) "points" =
    normalize_points rt
      (dict_get d "points" <or> dict_get d "estimate" <or> VNone).
Proof. reflexivity. Qed.

Lemma normalize_canonical_id (d : dict) :
  dict_get (normalize_ticket rt d) "canonical_id" =
    dict_get d "canonical_id" <or> dict_get d "id" <or> dict_get d "key"
      <or> dict_get d "ticket_id" <or> VNone.
Proof. reflexivity. Qed.

Lemma normalize_parent (d : dict) :
  dict_get (normalize_ticket rt d) "parent_canonical" =
    dict_get d "parent" <or> dict_get d "parent_id"
      <or> dict_get d "parent_key" <or> VNone.
Proof. reflexivity. Qed.

(** The parent reference the normaliser emits is [None] or truthy:
    never [0], never [''] . *)
Lemma normalize_parent_none_or_truthy (d : dict) :
  let p := dict_get (normalize_ticket rt d) "parent_canonical" in
  p = VNone \/ truthy p = true.
Proof. cbv zeta. rewrite normalize_parent. apply py_or_none. Qed.

(** The title the normaliser emits is truthy or the empty string. *)
Lemma normalize_title_truthy_or_empty (d : dict) :
  truthy (title_of (normalize_ticket rt d)) = true
  \/ title_of (normalize_ticket rt d) = VStr "".
Proof.
  rewrite normalize_title.
  set (a := dict_get d "title" <or> dict_get d "name" <or> dict_get d "summary").
  destruct (truthy a) eqn:E.
  - left. rewrite py_or_truthy by exact E. exact E.
  - right. apply py_or_falsy. exact E.
Qed.

(** C4. Whenever a raw record has a title present under one of the
    aliases [title], [name], [summary], the normalised ticket's title
    is exactly the value of the first alias, in that order, that is
    present. *)
Theorem title_is_first_present_alias (d : dict) (v : value) :
  first_present d ["title"; "name"; "summary"] = Some v ->
  title_of (normalize_ticket rt d) = v.
Proof.
  rewrite normalize_title. unfold first_present. simpl.
  destruct (truthy (dict_get d "title")) eqn:E1.
  - intros [= <-]. now rewrite !(py_or_truthy (dict_get d "title")).
  - rewrite (py_or_falsy _ _ E1).
    destruct (truthy (dict_get d "name")) eqn:E2.
    + intros [= <-]. now rewrite !(py_or_truthy (dict_get d "name")).
    + rewrite (py_or_falsy _ _ E2).
      destruct (truthy (dict_get d "summary")) eqn:E3.
      * intros [= <-]. now rewrite py_or_truthy.
      * discriminate.
Qed.

(** C7, as the code has it. Normalising a record never raises, and its
    [points] are: [None] when neither [points] nor [estimate] holds a
    truthy value (so a record whose points are [0] counts as having
    none); otherwise, for the first truthy one of the two, its [int]
    coercion when that succeeds, else its [float] coercion when that
    succeeds, else [None]. *)
Theorem points_coercion_ladder (d : dict) :
  dict_get (normalize_ticket rt d) "points" =
    match first_present d ["points"; "estimate"] with
    | None => VNone
    | Some v =>
        match py_int rt v with
        | Ok n => VInt n
        | Raise _ =>
            match py_float rt v with
            | Ok f => VFloat f
            | Raise _ => VNone
            end
        end
    end.
Proof.
  rewrite normalize_points_field. unfold first_present. simpl.
  destruct (truthy (dict_get d "points")) eqn:E1.
  - rewrite !(py_or_truthy (dict_get d "points")) by exact E1.
    unfold normalize_points.
    destruct (dict_get d "points"); try discriminate; reflexivity.
  - rewrite (py_or_falsy _ _ E1).
    destruct (truthy (dict_get d "estimate")) eqn:E2.
    + rewrite py_or_truthy by exact E2. unfold normalize_points.
      destruct (dict_get d "estimate"); try discriminate; reflexivity.
    + rewrite py_or_falsy by exact E2. reflexivity.
Qed.

(** *** The run as a fold *)

Lemma consider_keep (st : run_state) (c : dict) :
  str_titled c ->
  exists st', consider st c = Ok st' /\ tickets st' = keep (tickets st) c.
Proof.
  unfold str_titled, consider, keep, tickets, title_of, set_contains. intros Hs.
  destruct (dict_get c "title") eqn:Et; try discriminate.
  change (hashable (VStr s)) with true. cbv iota. simpl fst. simpl snd.
  destruct (negb (truthy (VStr s))) eqn:Ef; simpl orb.
  - exists st. split; reflexivity.
  - simpl bind. destruct (set_mem (VStr s) (seen_titles st)).
    + exists st. split; reflexivity.
    + eexists. split; reflexivity.
Qed.

Lemma for_each_consider (ds : list dict) : forall st : run_state,
  Forall str_titled (map (normalize_ticket rt) ds) ->
  exists st',
    for_each (fun st d => consider st (normalize_ticket rt d)) st ds = Ok st'
    /\ tickets st' = fold_left keep (map (normalize_ticket rt) ds) (tickets st)
    /\ errors st' = errors st.
Proof.
  induction ds as [|d ds IH]; intros st Hall; simpl.
  - exists st. repeat split.
  - inversion Hall as [|? ? Hd Hds]; subst.
    destruct (consider_keep st _ Hd) as [st1 [E1 T1]].
    destruct (IH st1 Hds) as [st2 [E2 [T2 R2]]].
    exists st2. rewrite E1. simpl. rewrite E2, T2, T1. repeat split.
    rewrite R2. revert E1. unfold consider.
    destruct (negb _); [intros [= <-]; reflexivity |].
    destruct (set_contains _ _) as [[|]|]; simpl;
      intros [= <-]; reflexivity.
Qed.

Lemma process_literal_records (st : run_state) (lit : value) :
  process_literal rt st lit =
    for_each (fun st d => consider st (normalize_ticket rt d))
             st (records_of_literal lit).
Proof.
  destruct lit as [| | | | |items| |entries]; try reflexivity; simpl.
  - destruct (forallb is_dict items) eqn:Hall; [|reflexivity].
    revert st. induction items as [|i items IH]; intros st; [reflexivity|].
    simpl in Hall. apply andb_prop in Hall as [Hi Hall].
    destruct i; try discriminate. simpl.
    destruct (consider st _); simpl; [apply IH; exact Hall | reflexivity].
  - destruct (forallb is_dict (map snd entries)) eqn:Hall.
    + revert st. induction entries as [|[k v] entries IH]; intros st;
        [reflexivity|].
      simpl in Hall. apply andb_prop in Hall as [Hv Hall].
      destruct v; try discriminate. simpl. unfold keyed_record.
      destruct (consider st _); simpl; [apply IH; exact Hall | reflexivity].
    + simpl. destruct (consider st _); reflexivity.
Qed.

Lemma for_each_literals (lits : list value) : forall st : run_state,
  Forall str_titled
    (map (normalize_ticket rt) (flat_map records_of_literal lits)) ->
  exists st',
    for_each (process_literal rt) st lits = Ok st'
    /\ tickets st' =
         fold_left keep
           (map (normalize_ticket rt) (flat_map records_of_literal lits))
           (tickets st)
    /\ errors st' = errors st.
Proof.
  induction lits as [|lit lits IH]; intros st Hall; simpl.
  - exists st. repeat split.
  - simpl in Hall. rewrite map_app in Hall. apply Forall_app in Hall as [H1 H2].
    rewrite process_literal_records.
    destruct (for_each_consider _ st H1) as [st1 [E1 [T1 R1]]].
    destruct (IH st1 H2) as [st2 [E2 [T2 R2]]].
    exists st2. rewrite E1. simpl. rewrite E2. repeat split.
    + rewrite map_app, fold_left_app, <- T1. exact T2.
    + congruence.
Qed.

Lemma for_each_files (files : list file) : forall st : run_state,
  Forall str_titled
    (map (normalize_ticket rt) (flat_map records_of_file files)) ->
  exists st',
    for_each (process_file rt) st files = Ok st'
    /\ tickets st' =
         fold_left keep
           (map (normalize_ticket rt) (flat_map records_of_file files))
           (tickets st).
Proof.
  induction files as [|f files IH]; intros st Hall; simpl.
  - exists st. repeat split.
  - simpl in Hall. rewrite map_app in Hall. apply Forall_app in Hall as [H1 H2].
    unfold process_file, records_of_file in *.
    destruct (extract_literals_from_file f) as [message|lits].
    + simpl. set (st1 := {| seen_titles := _ |}).
      destruct (IH st1 H2) as [st2 [E2 T2]].
      exists st2. split; [exact E2 | exact T2].
    + destruct (for_each_literals lits st H1) as [st1 [E1 [T1 _]]].
      destruct (IH st1 H2) as [st2 [E2 T2]].
      exists st2. rewrite E1. simpl. split; [exact E2|].
      rewrite map_app, fold_left_app, <- T1. exact T2.
Qed.

Lemma keyed_record_canonical_id (k : value) (v : dict) :
  dict_get (normalize_ticket rt (keyed_record k v)) "canonical_id" =
    (dict_get v "canonical_id" <or> k) <or> dict_get v "id"
      <or> dict_get v "key" <or> dict_get v "ticket_id" <or> VNone.
Proof.
  rewrite normalize_canonical_id. unfold keyed_record.
  rewrite dict_get_set_same.
  rewrite !dict_get_set_other by discriminate. reflexivity.
Qed.

(** C5. When every normalised title of the run is a string (the empty
    string where a record has none), [main] ends normally, and its
    candidate list holds exactly one ticket per distinct non-empty
    title met in the run: titles in the list are pairwise different
    and non-empty; every non-empty title of the stream, whatever file
    it came from, has its ticket in the list; and that ticket is the
    first record of the whole stream that carries the title. *)
Theorem one_candidate_per_title (glob : string -> list file) :
  Forall str_titled (stream rt glob) ->
  exists st, main rt glob = Ok st /\
    NoDup (map title_of (candidate_list st))
    /\ (forall c, In c (candidate_list st) -> truthy (title_of c) = true)
    /\ (forall c, In c (stream rt glob) -> truthy (title_of c) = true ->
          exists c', In c' (candidate_list st) /\ title_of c' = title_of c)
    /\ (forall c', In c' (candidate_list st) ->
          find (fun c => py_eq (title_of c) (title_of c')) (stream rt glob)
          = Some c').
Proof.
  intros Hall. unfold main.
  destruct (for_each_files (flat_map glob PATTERNS) initial Hall)
    as [st [Hrun Htickets]].
  exists st. split; [exact Hrun|].
  assert (Hc : candidate_list st = first_wins [] (stream rt glob)).
  { change (candidate_list st) with (snd (tickets st)).
    rewrite Htickets. unfold tickets, initial. simpl seen_titles.
    simpl candidate_list. now rewrite fold_keep_first_wins. }
  rewrite Hc. repeat split.
  - now apply first_wins_NoDup.
  - intros c Hin. now destruct (first_wins_In _ _ _ Hall Hin) as [_ [? _]].
  - intros c Hin Ht. apply first_wins_covers; auto.
  - intros c' Hin. now apply (first_wins_is_first _ []).
Qed.

(** C8, as the code has it. A dict literal whose values are all dicts
    is read as a mapping: each value is normalised with [canonical_id]
    set beforehand to its own truthy [canonical_id] or else to the
    mapping key.  A dict literal with any value that is not a dict is
    not read as a mapping at all: the literal itself is normalised as
    one single record, its nested records are not visited, and when it
    has no title under any alias the run goes on with nothing kept. *)
Theorem mapping_literal (st : run_state) (entries : dict) :
  process_literal rt st (VDict entries) =
    for_each (fun st d => consider st (normalize_ticket rt d))
             st (records_of_literal (VDict entries))
  /\ (forallb is_dict (map snd entries) = true ->
       forall k v, In (k, VDict v) entries ->
         In (keyed_record k v) (records_of_literal (VDict entries))
         /\ (truthy k = true ->
               dict_get (normalize_ticket rt (keyed_record k v)) "canonical_id"
               = dict_get v "canonical_id" <or> k))
  /\ (forallb is_dict (map snd entries) = false ->
       records_of_literal (VDict entries) = [entries]
       /\ (first_present entries ["title"; "name"; "summary"] = None ->
             process_literal rt st (VDict entries) = Ok st)).
Proof.
  split; [apply process_literal_records|]. split.
  - intros Hall k v Hin. split.
    + simpl. rewrite Hall. apply in_flat_map. exists (k, VDict v).
      split; [exact Hin | now left].
    + intros Hk. rewrite keyed_record_canonical_id.
      assert (Ht : truthy (dict_get v "canonical_id" <or> k) = true).
      { unfold py_or. destruct (truthy (dict_get v "canonical_id")) eqn:E;
          [exact E | exact Hk]. }
      now rewrite !(py_or_truthy (dict_get v "canonical_id" <or> k)).
  - intros Hmixed. simpl. rewrite Hmixed. split; [reflexivity|].
    unfold first_present. simpl. intros Hnone.
    assert (Ht : title_of (normalize_ticket rt entries) = VStr "").
    { rewrite normalize_title.
      destruct (truthy (dict_get entries "title")) eqn:E1; [discriminate|].
      destruct (truthy (dict_get entries "name")) eqn:E2; [discriminate|].
      destruct (truthy (dict_get entries "summary")) eqn:E3; [discriminate|].
      now rewrite (py_or_falsy _ _ E1), (py_or_falsy _ _ E2),
        (py_or_falsy _ _ E3). }
    unfold consider. fold (title_of (normalize_ticket rt entries)).
    rewrite Ht. reflexivity.
Qed.

End Normaliser.

(** *** Concrete runs *)

Lemma title_is_first_present_alias_witness :
  first_present login_record ["title"; "name"; "summary"]
    = Some (VStr "Fix login")
  /\ forall rt, title_of (normalize_ticket rt login_record) = VStr "Fix login".
Proof.
  split; [reflexivity|].
  intro rt. apply (title_is_first_present_alias rt login_record). reflexivity.
Defined.

(** C7 as stated fails on a record whose points are [0]: [int(0)]
    succeeds with [0], yet the normalised points are [None]. *)
Lemma zero_points_are_dropped :
  (forall rt, py_int rt (VInt 0) = Ok 0%Z)
  /\ (forall rt,
        dict_get (normalize_ticket rt [(VStr "points", VInt 0)]) "points"
        = VNone).
Proof. split; intro rt; reflexivity. Qed.

(** C8 as stated fails on it: the run does not crash, but the record
    under [SEC-001] is not extracted; no candidate comes out. *)
Lemma mixed_mapping_extracts_nothing :
  records_of_literal mixed_mapping
    = [[ (VStr "SEC-001", VDict [(VStr "title", VStr "Rotate keys")]);
         (VStr "note", VStr "see the wiki") ]]
  /\ (forall rt, main rt (one_file mixed_mapping) = Ok initial).
Proof. split; [reflexivity | intro rt; reflexivity]. Qed.

(** The same mapping without the stray string is extracted, keyed. *)
Example proper_mapping_is_extracted (rt : runtime) :
  exists st,
    main rt (one_file (VDict [(VStr "SEC-001",
                               VDict [(VStr "title", VStr "Rotate keys")])]))
    = Ok st
    /\ map title_of (candidate_list st) = [VStr "Rotate keys"]
    /\ map (fun c => dict_get c "canonical_id") (candidate_list st)
       = [VStr "SEC-001"].
Proof. eexists. split; [reflexivity | split; reflexivity]. Qed.

Lemma one_candidate_per_title_witness :
  (forall rt, Forall str_titled (stream rt two_files))
  /\ (forall rt, exists st, main rt two_files = Ok st /\
        NoDup (map title_of (candidate_list st))
        /\ (forall c, In c (candidate_list st) -> truthy (title_of c) = true)
        /\ (forall c, In c (stream rt two_files) -> truthy (title_of c) = true ->
              exists c', In c' (candidate_list st) /\ title_of c' = title_of c)
        /\ (forall c', In c' (candidate_list st) ->
              find (fun c => py_eq (title_of c) (title_of c')) (stream rt two_files)
              = Some c')).
Proof.
  split.
  - intro rt. repeat constructor.
  - intro rt. apply (one_candidate_per_title rt two_files). repeat constructor.
Defined.

Example two_files_run (rt : runtime) :
  exists st, main rt two_files = Ok st
    /\ map title_of (candidate_list st) = [VStr "Add cache"; VStr "Add index"]
    /\ map (fun c => dict_get c "canonical_id") (candidate_list st)
       = [VStr "A-1"; VNone].
Proof. eexists. split; [reflexivity | split; reflexivity]. Qed.

End ParseFacts.

(* ================================================================= *)
(** ** The reconciler *)

Module CompareFacts.
Import PyFacts CompareAndExport CompareSpec.

(** *** Containment up to letter case *)

Lemma upper_app (a b : string) :
  upper (a ++ b)%string = (upper a ++ upper b)%string.
Proof. induction a as [|c a IH]; simpl; [reflexivity | now rewrite IH]. Qed.

Lemma upper_app_inv (x : string) : forall b y : string,
  upper b = (x ++ y)%string ->
  exists b1 b2, b = (b1 ++ b2)%string /\ upper b1 = x /\ upper b2 = y.
Proof.
  induction x as [|c x IH]; intros b y H; simpl in H.
  - exists ""%string, b. repeat split. exact H.
  - destruct b as [|c' b]; simpl in H; [discriminate|].
    injection H as Hc Hb. destruct (IH _ _ Hb) as [b1 [b2 [-> [H1 H2]]]].
    exists (String c' b1), b2. simpl. now rewrite H1, Hc.
Qed.

Lemma prefix_iff (p : string) : forall s : string,
  String.prefix p s = true <-> exists post, s = (p ++ post)%string.
Proof.
  induction p as [|c p IH]; intros s.
  - split; [intros _; now exists s | intros _; now destruct s].
  - destruct s as [|c' s]; simpl; [split; [discriminate | intros [? [=]]]|].
    destruct (ascii_dec c c') as [<-|Hne].
    + rewrite IH. split; intros [post H]; exists post; congruence.
    + split; [discriminate | intros [post H]; congruence].
Qed.

Lemma str_in_iff (needle : string) : forall hay : string,
  str_in needle hay = true
  <-> exists pre post, hay = (pre ++ needle ++ post)%string.
Proof.
  induction hay as [|c hay IH]; cbn [str_in]; rewrite orb_true_iff, prefix_iff.
  - split.
    + intros [[post H] | H]; [|discriminate]. now exists ""%string, post.
    + intros [pre [post H]]. left. destruct pre; [now exists post | discriminate].
  - rewrite IH. split.
    + intros [[post H] | [pre [post H]]].
      * now exists ""%string, post.
      * exists (String c pre), post. simpl. now rewrite H.
    + intros [pre [post H]]. destruct pre as [|c' pre]; simpl in H.
      * left. now exists post.
      * right. injection H as _ H. now exists pre, post.
Qed.

(** On ASCII text, a marker occurs up to case when some stretch of
    the body upper-cases to it. *)
Lemma contains_ci_ascii (marker body : string) :
  contains_ci ascii_runtime marker body
  <-> exists pre mid post : string,
        body = (pre ++ mid ++ post)%string /\ upper mid = marker.
Proof.
  unfold contains_ci. cbn [str_upper ascii_runtime]. split.
  - intros [pre' [post' H]].
    destruct (upper_app_inv _ _ _ H) as [pre [rest [-> [_ Hrest]]]].
    destruct (upper_app_inv _ _ _ Hrest) as [mid [post [-> [Hmid _]]]].
    now exists pre, mid, post.
  - intros [pre [mid [post [-> Hmid]]]].
    exists (upper pre), (upper post). now rewrite !upper_app, Hmid.
Qed.

Section Reconciler.

Variable rt : runtime.

(** The test the code runs is containment up to case, in a body that
    is not empty. *)
Lemma body_has_required_fields_str (b : string) :
  exists ok : bool,
    body_has_required_fields rt (VStr b) = Ok ok
    /\ (ok = true <-> all_markers rt b).
Proof.
  unfold body_has_required_fields, all_markers, contains_ci.
  destruct (truthy (VStr b)) eqn:E.
  - cbn [py_upper bind]. eexists. split; [reflexivity|].
    unfold REQUIRE_FIELDS. cbn [forallb].
    rewrite !andb_true_iff, !str_in_iff.
    apply negb_true_iff, String.eqb_neq in E. tauto.
  - cbn [bind]. exists false. split; [reflexivity|].
    apply negb_false_iff, String.eqb_eq in E.
    split; [discriminate | intros [Hne _]; contradiction].
Qed.

(** *** Expected parent *)

(** C3. For a parent reference as the normaliser emits it ([None], or
    a truthy value) that can be hashed, the expected parent number is:
    null when the reference is absent; the reference itself when it is
    an integer; otherwise the issue map's entry for it, and null, with
    no error, when the map has none. *)
Theorem expected_parent_resolution (p : value) (issue_map : dict) :
  p = VNone \/ truthy p = true ->
  hashable p = true ->
  map_parent_canonical_to_number p issue_map =
    Ok (if is_none p then VNone
        else if is_int p then p
        else match dict_find p issue_map with
             | Some number => number
             | None => VNone
             end).
Proof.
  intros [-> | Ht] Hh; [reflexivity|].
  unfold map_parent_canonical_to_number, dict_contains, dict_getitem.
  rewrite Ht, Hh. simpl.
  destruct p; try discriminate; try reflexivity;
    simpl; destruct (dict_find _ issue_map); reflexivity.
Qed.

(** Whatever is falsy resolves to null as well. *)
Lemma falsy_parent_is_null (p : value) (issue_map : dict) :
  truthy p = false -> map_parent_canonical_to_number p issue_map = Ok VNone.
Proof. unfold map_parent_canonical_to_number. now intros ->. Qed.

(** A numeric string is no integer: it is looked up like any other
    string. *)
Example numeric_string_is_looked_up :
  map_parent_canonical_to_number (VStr "42") [(VStr "CORE-1", VInt 42)]
  = Ok VNone.
Proof. reflexivity. Qed.

Lemma expected_parent_resolution_witness :
  (VStr "CORE-1" = VNone \/ truthy (VStr "CORE-1") = true)
  /\ map_parent_canonical_to_number (VStr "CORE-1")
       [(VStr "CORE-1", VInt 42)] = Ok (VInt 42)
  /\ map_parent_canonical_to_number (VStr "CORE-2")
       [(VStr "CORE-1", VInt 42)] = Ok VNone
  /\ map_parent_canonical_to_number (VInt 7)
       [(VStr "CORE-1", VInt 42)] = Ok (VInt 7).
Proof.
  split; [right; reflexivity|]. split; [|split].
  - apply (expected_parent_resolution (VStr "CORE-1"));
      [right; reflexivity | reflexivity].
  - apply (expected_parent_resolution (VStr "CORE-2"));
      [right; reflexivity | reflexivity].
  - apply (expected_parent_resolution (VInt 7));
      [right; reflexivity | reflexivity].
Defined.

(** *** The remote snapshot *)

Lemma titled_py_eq (t : string) (d : dict) :
  py_eq (dict_get d "title") (VStr t) = titled t (VDict d).
Proof.
  unfold titled. destruct (dict_get d "title"); reflexivity.
Qed.

Lemma title_matches_filter (t : string) (arr : list value) :
  forallb remote_ticket arr = true ->
  title_matches (VStr t) arr = Ok (as_dicts (filter (titled t) arr)).
Proof.
  induction arr as [|item arr IH]; intros Hall; [reflexivity|].
  simpl in Hall. apply andb_prop in Hall as [Hi Hall].
  destruct item as [| | | | | | |d]; try discriminate.
  cbn [title_matches filter]. rewrite (IH Hall), titled_py_eq. cbn [bind].
  destruct (titled t (VDict d)); reflexivity.
Qed.

Lemma gh_issue_list_snapshot (w : responses) (arr : list value) (t : string) :
  snapshot w arr ->
  gh_issue_list_by_title (issue_list w) (VStr t)
  = Ok (as_dicts (filter (titled t) arr)).
Proof.
  intros [Hrc [Hout Hall]]. unfold gh_issue_list_by_title.
  rewrite Hrc, Hout. simpl. now apply title_matches_filter.
Qed.

Lemma gh_issue_list_fails (p : completed_process) (title : value) :
  query_fails p -> exists e, gh_issue_list_by_title p title = Raise e.
Proof.
  unfold gh_issue_list_by_title. intros [Hrc | [e He]].
  - apply Z.eqb_neq in Hrc. rewrite Hrc. now exists RuntimeError.
  - destruct (negb _); [now exists RuntimeError|]. rewrite He. now exists e.
Qed.

Lemma numbers_of_remote (items : list value) :
  forallb remote_ticket items = true ->
  numbers_of (as_dicts items) = Ok (map number_of items).
Proof.
  induction items as [|item items IH]; intros Hall; [reflexivity|].
  simpl in Hall. apply andb_prop in Hall as [Hi Hall].
  destruct item as [| | | | | | |d]; try discriminate.
  simpl in *. unfold dict_getitem, dict_get. simpl hashable. cbv iota.
  destruct (dict_find (VStr "number") d); [|discriminate].
  simpl. now rewrite (IH Hall).
Qed.

Lemma forallb_filter {A} (f g : A -> bool) (l : list A) :
  forallb f l = true -> forallb f (filter g l) = true.
Proof.
  rewrite !forallb_forall. intros H x Hx. apply filter_In in Hx. now apply H.
Qed.

Lemma as_dicts_length (items : list value) :
  forallb remote_ticket items = true ->
  List.length (as_dicts items) = List.length items.
Proof.
  induction items as [|item items IH]; intros Hall; [reflexivity|].
  simpl in Hall. apply andb_prop in Hall as [Hi Hall].
  destruct item; try discriminate. simpl. now rewrite (IH Hall).
Qed.

(** What the loop body does once [reconcile] has decided. *)
Lemma loop_body_done (issues_map : dict) (st : state) (c : dict)
    (w : responses) (e : value) (v : verdict) :
  reconcile rt issues_map c w = Done (e, v) ->
  loop_body rt issues_map st c w =
    Done (record {| exported := exported st;
                    scanned := S (scanned st);
                    fully_correct := fully_correct st;
                    ambiguous := ambiguous st |} c e v).
Proof. unfold loop_body. now intros ->. Qed.

Section OneCandidate.

Variables (issues_map c : dict) (w : responses) (t : string)
          (arr : list value) (e : value).
Hypothesis Htitle : dict_get c "title" = VStr t.
Hypothesis Hsnap : snapshot w arr.
Hypothesis Hparent :
  map_parent_canonical_to_number (dict_get c "parent_canonical") issues_map
  = Ok e.

Lemma reconcile_missing :
  filter (titled t) arr = [] -> reconcile rt issues_map c w = Done (e, Missing).
Proof.
  intros Hnone. unfold reconcile. rewrite Hparent, Htitle. simpl.
  now rewrite (gh_issue_list_snapshot w arr t Hsnap), Hnone.
Qed.

Lemma reconcile_ambiguous :
  2 <= List.length (filter (titled t) arr) ->
  reconcile rt issues_map c w
  = Done (e, Ambiguous (map number_of (filter (titled t) arr))).
Proof.
  intros Hmany. unfold reconcile. rewrite Hparent, Htitle. simpl.
  rewrite (gh_issue_list_snapshot w arr t Hsnap).
  destruct Hsnap as [_ [_ Hall]].
  pose proof (forallb_filter remote_ticket (titled t) arr Hall) as Hf.
  pose proof (as_dicts_length _ Hf) as Hlen.
  pose proof (numbers_of_remote _ Hf) as Hn.
  destruct (as_dicts (filter (titled t) arr)) as [|m ms] eqn:Em.
  - simpl in Hlen. lia.
  - assert (Hlt : Nat.ltb 1 (List.length (m :: ms)) = true)
      by (apply Nat.ltb_lt; lia).
    now rewrite Hlt, Hn.
Qed.

Lemma reconcile_single (remote : dict) (b : string) :
  filter (titled t) arr = [VDict remote] ->
  dict_get remote "body" <or> VStr "" = VStr b ->
  exists body_ok : bool,
    (body_ok = true <-> all_markers rt b)
    /\ reconcile rt issues_map c w =
       Done (e,
             let num := dict_get remote "number" in
             let parent :=
               try_except (gh_sub_issue_parent (sub_issue_list w num)) VNone in
             if parent_ok e parent && body_ok then Correct
             else Incomplete num parent body_ok).
Proof.
  intros Hone Hbody.
  destruct (body_has_required_fields_str b) as [ok [Hok Hiff]].
  exists ok. split; [exact Hiff|].
  unfold reconcile. rewrite Hparent, Htitle. simpl.
  rewrite (gh_issue_list_snapshot w arr t Hsnap), Hone. simpl.
  unfold check_single. rewrite Hbody, Hok. simpl.
  destruct (parent_ok _ _ && ok); reflexivity.
Qed.

End OneCandidate.

Lemma parent_ok_iff (expected actual : value) :
  parent_ok expected actual = true <-> same_parent expected actual.
Proof.
  unfold parent_ok, same_parent. rewrite orb_true_iff, andb_true_iff.
  split; (intros [[H1 H2] | H]; [left | now right]).
  - destruct expected, actual; try discriminate. now split.
  - now subst.
Qed.

(** C1. For a candidate whose title is the string [t], against a
    listing that succeeded: if no remote ticket is titled exactly [t]
    the candidate is Missing and is exported; if two or more are, it is
    Ambiguous (so not Correct: the correct counter stays), it is
    exported, and the numbers of all the matching tickets are recorded.
    Nothing here looks at the bodies or parents of the matches. *)
Theorem no_match_is_missing_many_is_ambiguous
    (issues_map c : dict) (w : responses) (st : state) (t : string)
    (arr : list value) (e : value) :
  dict_get c "title" = VStr t ->
  snapshot w arr ->
  map_parent_canonical_to_number (dict_get c "parent_canonical") issues_map
    = Ok e ->
  (filter (titled t) arr = [] ->
     reconcile rt issues_map c w = Done (e, Missing)
     /\ loop_body rt issues_map st c w =
          Done {| exported := exported st ++ [export_record c e];
                  scanned := S (scanned st);
                  fully_correct := fully_correct st;
                  ambiguous := ambiguous st |})
  /\ (2 <= List.length (filter (titled t) arr) ->
       let ns := map number_of (filter (titled t) arr) in
       reconcile rt issues_map c w = Done (e, Ambiguous ns)
       /\ loop_body rt issues_map st c w =
            Done {| exported := exported st ++ [export_record c e];
                    scanned := S (scanned st);
                    fully_correct := fully_correct st;
                    ambiguous := ambiguous st
                                 ++ [[(VStr "title", VStr t);
                                      (VStr "matches", VList ns)]] |}).
Proof.
  intros Ht Hsnap He. split.
  - intros Hnone.
    pose proof (reconcile_missing _ _ _ _ _ _ Ht Hsnap He Hnone) as Hr.
    split; [exact Hr | now rewrite (loop_body_done _ st _ _ _ _ Hr)].
  - intros Hmany ns.
    pose proof (reconcile_ambiguous _ _ _ _ _ _ Ht Hsnap He Hmany) as Hr.
    split; [exact Hr|].
    rewrite (loop_body_done _ st _ _ _ _ Hr). simpl. now rewrite Ht.
Qed.

(** C2. For a candidate with exactly one remote ticket titled exactly
    like it, whose body is text: the candidate is Correct, left out of
    the export and counted as fully correct, if and only if the remote
    body contains [REQUIRES], [PROVIDES] and [PRIORITY] up to case and
    the resolved remote parent equals the expected parent number or
    both are null.  Otherwise it is exported with a [notes] block that
    carries the remote number under [remote_issue_number], the
    resolved parent number under [remote_parent_number] and, under
    [body_has_required_fields], whether the body had all the
    markers. *)
Theorem single_match_correct_iff_complete
    (issues_map c : dict) (w : responses) (st : state) (t : string)
    (arr : list value) (e : value) (remote : dict) (b : string) :
  dict_get c "title" = VStr t ->
  snapshot w arr ->
  map_parent_canonical_to_number (dict_get c "parent_canonical") issues_map
    = Ok e ->
  filter (titled t) arr = [VDict remote] ->
  dict_get remote "body" <or> VStr "" = VStr b ->
  let num := dict_get remote "number" in
  let parent := try_except (gh_sub_issue_parent (sub_issue_list w num)) VNone in
  let complete := all_markers rt b /\ same_parent e parent in
  (reconcile rt issues_map c w = Done (e, Correct) <-> complete)
  /\ (complete ->
       loop_body rt issues_map st c w =
         Done {| exported := exported st;
                 scanned := S (scanned st);
                 fully_correct := S (fully_correct st);
                 ambiguous := ambiguous st |})
  /\ (~ complete ->
       exists body_ok : bool,
         (body_ok = true <-> all_markers rt b)
         /\ loop_body rt issues_map st c w =
              Done {| exported :=
                        exported st
                        ++ [export_record c e
                            ++ [(VStr "notes",
                                 VDict
                                   [ (VStr "remote_issue_number", num);
                                     (VStr "remote_parent_number", parent);
                                     (VStr "body_has_required_fields",
                                      VBool body_ok) ])]];
                      scanned := S (scanned st);
                      fully_correct := fully_correct st;
                      ambiguous := ambiguous st |}).
Proof.
  intros Ht Hsnap He Hone Hbody num parent complete.
  destruct (reconcile_single _ _ _ _ _ _ Ht Hsnap He _ _ Hone Hbody)
    as [ok [Hok Hr]].
  cbv zeta in Hr. fold num in Hr. fold parent in Hr.
  assert (Hc : parent_ok e parent && ok = true <-> complete).
  { unfold complete. rewrite andb_true_iff, parent_ok_iff, Hok. tauto. }
  destruct (parent_ok e parent && ok) eqn:Eb.
  - assert (complete) as Hyes by now apply Hc.
    split; [split; [intros _; exact Hyes | intros _; exact Hr]|].
    split; [intros _; now rewrite (loop_body_done _ st _ _ _ _ Hr)|].
    intros Hno. contradiction.
  - assert (~ complete) as Hno by (intros H; apply Hc in H; discriminate).
    split; [split; [rewrite Hr; discriminate | intros H; contradiction]|].
    split; [intros H; contradiction|].
    intros _. exists ok. split; [exact Hok|].
    now rewrite (loop_body_done _ st _ _ _ _ Hr).
Qed.

(** C6, as the code has it. When two or more remote tickets carry the
    candidate's title, the candidate is exported as a plain record of
    the thirteen export fields, with no annotation in it; the title and
    the numbers of all the matching tickets go to the run's separate
    [ambiguous] list, which grows by one, and whose length is the
    ambiguous count of the summary. *)
Theorem ambiguity_is_listed_apart
    (issues_map c : dict) (w : responses) (st : state) (t : string)
    (arr : list value) (e : value) :
  dict_get c "title" = VStr t ->
  snapshot w arr ->
  map_parent_canonical_to_number (dict_get c "parent_canonical") issues_map
    = Ok e ->
  2 <= List.length (filter (titled t) arr) ->
  exists st',
    loop_body rt issues_map st c w = Done st'
    /\ exported st' = exported st ++ [export_record c e]
    /\ map fst (export_record c e) = map VStr export_fields
    /\ ambiguous st' =
         ambiguous st
         ++ [[(VStr "title", VStr t);
              (VStr "matches",
               VList (map number_of (filter (titled t) arr)))]]
    /\ List.length (ambiguous st') = S (List.length (ambiguous st)).
Proof.
  intros Ht Hsnap He Hmany.
  pose proof (reconcile_ambiguous _ _ _ _ _ _ Ht Hsnap He Hmany) as Hr.
  eexists. split; [exact (loop_body_done _ st _ _ _ _ Hr)|].
  simpl. rewrite Ht. repeat split.
  rewrite length_app. simpl. lia.
Qed.

(** *** Failures *)

Lemma loop_app (issues_map : dict) (gh : nat -> responses)
    (xs ys : list dict) : forall st,
  loop rt issues_map gh st (xs ++ ys) =
    and_then (loop rt issues_map gh st xs)
             (fun st' => loop rt issues_map gh st' ys).
Proof.
  induction xs as [|x xs IH]; intros st; simpl; [reflexivity|].
  destruct (loop_body rt issues_map st x (gh (scanned st))); simpl;
    [apply IH | reflexivity | reflexivity].
Qed.

Lemma reconcile_query_fails (issues_map c : dict) (w : responses) (e : value) :
  map_parent_canonical_to_number (dict_get c "parent_canonical") issues_map
    = Ok e ->
  query_fails (issue_list w) ->
  reconcile rt issues_map c w = Exit 1.
Proof.
  intros He Hf. unfold reconcile. rewrite He. simpl.
  destruct (gh_issue_list_fails _ (dict_get c "title") Hf) as [x ->].
  reflexivity.
Qed.

Lemma lookup_failure_is_no_parent (p : completed_process) :
  lookup_fails p -> try_except (gh_sub_issue_parent p) VNone = VNone.
Proof.
  intros [Hrc | [[x Hx] | [x Hx]]].
  - unfold gh_sub_issue_parent. apply Z.eqb_neq in Hrc. now rewrite Hrc.
  - unfold gh_sub_issue_parent. rewrite Hx. now destruct (negb _).
  - now rewrite Hx.
Qed.

Lemma map_parent_hashable (p : value) (issue_map : dict) :
  hashable p = true ->
  exists e, map_parent_canonical_to_number p issue_map = Ok e.
Proof.
  intros Hh. unfold map_parent_canonical_to_number, dict_contains, dict_getitem.
  rewrite Hh. destruct (negb (truthy p)); [now eexists|].
  destruct (is_int p); [now eexists|]. simpl.
  destruct (dict_find p issue_map); now eexists.
Qed.

Lemma title_matches_proper (title : value) (arr : list value) :
  forallb remote_ticket arr = true ->
  forallb string_body arr = true ->
  exists ms, title_matches title arr = Ok ms /\ Forall proper ms.
Proof.
  induction arr as [|item arr IH]; intros Hr Hb; [now exists []|].
  simpl in Hr, Hb. apply andb_prop in Hr as [Hr1 Hr]. apply andb_prop in Hb as [Hb1 Hb].
  destruct (IH Hr Hb) as [ms [Hms Hall]].
  destruct item as [| | | | | | |d]; try discriminate.
  cbn [title_matches]. rewrite Hms. cbn [bind].
  destruct (py_eq _ _); eexists; split; try reflexivity; auto.
  constructor; [now split | exact Hall].
Qed.

Lemma numbers_of_proper (ms : list dict) :
  Forall proper ms -> exists ns, numbers_of ms = Ok ns.
Proof.
  induction 1 as [|m ms [Hm _] _ [ns IH]]; [now exists []|].
  cbn [numbers_of]. unfold dict_getitem. simpl hashable. cbv iota.
  simpl in Hm. destruct (dict_find (VStr "number") m); [|discriminate].
  cbn [bind]. rewrite IH. now eexists.
Qed.

Lemma check_single_done (e : value) (remote : dict) (w : responses) :
  string_body (VDict remote) = true ->
  exists v, check_single rt e remote w = Done v.
Proof.
  unfold string_body, check_single. intros Hb.
  destruct (dict_get remote "body" <or> VStr "") as [| | | |b| | |];
    try discriminate.
  destruct (body_has_required_fields_str b) as [ok [-> _]]. simpl.
  destruct (_ && ok); now eexists.
Qed.

Lemma reconcile_done (issues_map c : dict) (w : responses) :
  hashable (dict_get c "parent_canonical") = true ->
  lists_properly w ->
  exists r, reconcile rt issues_map c w = Done r.
Proof.
  intros Hh [arr [[Hrc [Hout Hr]] Hb]].
  destruct (map_parent_hashable _ issues_map Hh) as [e He].
  unfold reconcile, gh_issue_list_by_title. rewrite He, Hrc, Hout. simpl.
  destruct (title_matches_proper (dict_get c "title") arr Hr Hb)
    as [ms [-> Hall]].
  destruct ms as [|m ms]; [now eexists|].
  destruct (Nat.ltb 1 (List.length (m :: ms))).
  - destruct (numbers_of_proper _ Hall) as [ns ->]. now eexists.
  - inversion Hall as [|? ? [_ Hm] _]; subst.
    destruct (check_single_done e m w Hm) as [v ->]. now eexists.
Qed.

Lemma loop_completes (issues_map : dict) (gh : nat -> responses)
    (candidates : list dict) : forall st,
  (forall c, In c candidates ->
             hashable (dict_get c "parent_canonical") = true) ->
  (forall i, lists_properly (gh i)) ->
  exists st', loop rt issues_map gh st candidates = Done st'.
Proof.
  induction candidates as [|c cs IH]; intros st Hh Hgh; [now eexists|].
  cbn [loop]. unfold loop_body.
  destruct (reconcile_done issues_map c (gh (scanned st))
              (Hh c (or_introl eq_refl)) (Hgh _)) as [r ->].
  simpl. apply IH; [|exact Hgh]. intros c' Hin. apply Hh. now right.
Qed.

(** C9. If the listing query fails for some candidate, after any
    number of candidates handled normally, the run ends there with
    exit status 1 and writes no export.  A failed parent lookup reads
    as "no parent"; and as long as the listings arrive properly the run
    completes and writes its export, whatever the parent lookups do. *)
Theorem listing_failure_aborts_parent_failure_does_not :
  (forall (issues_map : dict) (gh : nat -> responses)
          (pre : list dict) (c : dict) (post : list dict)
          (st : state) (e : value),
     loop rt issues_map gh start pre = Done st ->
     map_parent_canonical_to_number (dict_get c "parent_canonical") issues_map
       = Ok e ->
     query_fails (issue_list (gh (scanned st))) ->
     main rt (pre ++ c :: post) issues_map gh = Exit 1)
  /\ (forall p : completed_process,
        lookup_fails p -> try_except (gh_sub_issue_parent p) VNone = VNone)
  /\ (forall (issues_map : dict) (gh : nat -> responses)
             (candidates : list dict),
        (forall c, In c candidates ->
                   hashable (dict_get c "parent_canonical") = true) ->
        (forall i, lists_properly (gh i)) ->
        exists r, main rt candidates issues_map gh = Done r
                  /\ List.length (written r) = n_exported r).
Proof.
  split; [|split].
  - intros issues_map gh pre c post st e Hpre He Hf.
    unfold main. rewrite loop_app, Hpre. cbn [and_then loop].
    unfold loop_body. now rewrite (reconcile_query_fails _ _ _ _ He Hf).
  - exact lookup_failure_is_no_parent.
  - intros issues_map gh candidates Hh Hgh. unfold main.
    destruct (loop_completes issues_map gh candidates start Hh Hgh) as [st ->].
    eexists. split; reflexivity.
Qed.

(** *** Counters *)

Lemma loop_body_one_of_two (issues_map : dict) (st : state) (c : dict)
    (w : responses) (st' : state) :
  loop_body rt issues_map st c w = Done st' ->
  scanned st' = S (scanned st) /\ one_of_two st st'.
Proof.
  unfold loop_body. destruct (reconcile rt issues_map c w) as [[e v]| |];
    try discriminate.
  simpl. intros [= <-]. unfold one_of_two.
  destruct v; simpl; split; try reflexivity.
  - right. repeat split; [now eexists | lia].
  - right. repeat split; [now eexists | rewrite length_app; simpl; lia].
  - left. repeat split.
  - right. repeat split; [now eexists | lia].
Qed.

Lemma loop_body_balanced (issues_map : dict) (st : state) (c : dict)
    (w : responses) (st' : state) :
  loop_body rt issues_map st c w = Done st' -> balanced st -> balanced st'.
Proof.
  intros H [Hs Ha]. apply loop_body_one_of_two in H as [Hsc Hone].
  unfold balanced. rewrite Hsc.
  destruct Hone as [[Hf [He Hm]] | [Hf [[r He] Hm]]]; rewrite Hf, He.
  - rewrite Hm. lia.
  - rewrite length_app. simpl. lia.
Qed.

Lemma loop_balanced (issues_map : dict) (gh : nat -> responses)
    (candidates : list dict) : forall st st',
  loop rt issues_map gh st candidates = Done st' ->
  balanced st ->
  balanced st' /\ scanned st' = scanned st + List.length candidates.
Proof.
  induction candidates as [|c cs IH]; intros st st' H Hb; simpl in H.
  - injection H as <-. split; [exact Hb | simpl; lia].
  - destruct (loop_body rt issues_map st c (gh (scanned st))) as [st1| |] eqn:E;
      try discriminate.
    simpl in H. destruct (IH _ _ H (loop_body_balanced _ _ _ _ _ E Hb))
      as [Hb' Hs'].
    apply loop_body_one_of_two in E as [Hsc _].
    split; [exact Hb' | simpl; lia].
Qed.

(** C10. In every run that completes, the scanned count is the number
    of fully correct candidates plus the number of exported records,
    and the ambiguous count is at most the exported count; each pass of
    the loop adds one candidate to exactly one of the two. *)
Theorem scanned_is_correct_plus_exported
    (candidates : list dict) (issues_map : dict) (gh : nat -> responses)
    (r : report) :
  main rt candidates issues_map gh = Done r ->
  n_scanned r = n_fully_correct r + n_exported r
  /\ n_ambiguous r <= n_exported r
  /\ n_scanned r = List.length candidates
  /\ n_exported r = List.length (written r)
  /\ (forall st c w st',
        loop_body rt issues_map st c w = Done st' -> one_of_two st st').
Proof.
  unfold main. intros H.
  destruct (loop rt issues_map gh start candidates) as [st| |] eqn:E;
    try discriminate.
  simpl in H. injection H as <-. simpl.
  assert (Hb : balanced start) by (split; simpl; lia).
  destruct (loop_balanced _ _ _ _ _ E Hb) as [[Hs Ha] Hn].
  repeat split; auto.
  intros st0 c w st' Hstep. now apply loop_body_one_of_two in Hstep.
Qed.

End Reconciler.

(** *** Concrete runs *)

Lemma no_match_is_missing_many_is_ambiguous_witness :
  (reconcile ascii_runtime sample_map cache_candidate none_listed
     = Done (VInt 42, Missing)
   /\ loop_body ascii_runtime sample_map start cache_candidate none_listed =
        Done {| exported := [export_record cache_candidate (VInt 42)];
                scanned := 1; fully_correct := 0; ambiguous := [] |})
  /\ (reconcile ascii_runtime sample_map cache_candidate two_same
        = Done (VInt 42, Ambiguous [VInt 11; VInt 12])
      /\ loop_body ascii_runtime sample_map start cache_candidate two_same =
           Done {| exported := [export_record cache_candidate (VInt 42)];
                   scanned := 1; fully_correct := 0;
                   ambiguous := [[(VStr "title", VStr "Add caching layer");
                                  (VStr "matches",
                                   VList [VInt 11; VInt 12])]] |}).
Proof.
  split.
  - apply (no_match_is_missing_many_is_ambiguous ascii_runtime sample_map
             cache_candidate none_listed start "Add caching layer" [] (VInt 42)
             eq_refl (conj eq_refl (conj eq_refl eq_refl)) eq_refl).
    reflexivity.
  - apply (no_match_is_missing_many_is_ambiguous ascii_runtime sample_map
             cache_candidate two_same start "Add caching layer"
             [remote_cache 11 good_body; remote_cache 12 ""] (VInt 42)
             eq_refl (conj eq_refl (conj eq_refl eq_refl)) eq_refl).
    simpl. lia.
Defined.

Lemma single_match_correct_iff_complete_witness :
  (reconcile ascii_runtime sample_map cache_candidate one_good
     = Done (VInt 42, Correct)
   <-> all_markers ascii_runtime good_body /\ same_parent (VInt 42) (VInt 42))
  /\ ~ (all_markers ascii_runtime good_body
        /\ same_parent (VInt 42) (VInt 7))
  /\ exists body_ok : bool,
       (body_ok = true <-> all_markers ascii_runtime good_body)
       /\ loop_body ascii_runtime sample_map start cache_candidate
            one_misparented =
            Done {| exported :=
                      [] ++ [export_record cache_candidate (VInt 42)
                             ++ [(VStr "notes",
                                  VDict
                                    [ (VStr "remote_issue_number", VInt 11);
                                      (VStr "remote_parent_number", VInt 7);
                                      (VStr "body_has_required_fields",
                                       VBool body_ok) ])]];
                    scanned := 1;
                    fully_correct := 0;
                    ambiguous := [] |}.
Proof.
  assert (Hno : ~ (all_markers ascii_runtime good_body
                   /\ same_parent (VInt 42) (VInt 7)))
    by (intros [_ [[H _] | H]]; discriminate).
  split; [|split; [exact Hno|]].
  - apply (single_match_correct_iff_complete ascii_runtime sample_map
             cache_candidate one_good start "Add caching layer"
             [remote_cache 11 good_body] (VInt 42) _ good_body
             eq_refl (conj eq_refl (conj eq_refl eq_refl)) eq_refl
             eq_refl eq_refl).
  - apply (single_match_correct_iff_complete ascii_runtime sample_map
             cache_candidate one_misparented start "Add caching layer"
             [remote_cache 11 good_body] (VInt 42)
             [ (VStr "number", VInt 11);
               (VStr "title", VStr "Add caching layer");
               (VStr "body", VStr good_body) ]
             good_body
             eq_refl (conj eq_refl (conj eq_refl eq_refl)) eq_refl
             eq_refl eq_refl).
    exact Hno.
Defined.

(** The two scenarios, run: parent 42 is correct; parent 7 is exported
    with the remote parent noted. *)
Example good_ticket_is_not_exported :
  loop_body ascii_runtime sample_map start cache_candidate one_good =
    Done {| exported := []; scanned := 1; fully_correct := 1;
            ambiguous := [] |}.
Proof. reflexivity. Qed.

Example misparented_ticket_is_exported :
  loop_body ascii_runtime sample_map start cache_candidate one_misparented =
    Done {| exported :=
              [export_record cache_candidate (VInt 42)
               ++ [(VStr "notes", notes (VInt 11) (VInt 7) true)]];
            scanned := 1; fully_correct := 0; ambiguous := [] |}.
Proof. reflexivity. Qed.

(** C6 as stated fails here: two remote tickets share the title, and
    the exported record has the thirteen plain fields and nothing
    else; the numbers 11 and 12 are in the [ambiguous] list only. *)
Lemma ambiguous_export_has_no_annotation :
  loop_body ascii_runtime sample_map start cache_candidate two_same =
    Done {| exported := [export_record cache_candidate (VInt 42)];
            scanned := 1; fully_correct := 0;
            ambiguous := [[(VStr "title", VStr "Add caching layer");
                           (VStr "matches", VList [VInt 11; VInt 12])]] |}
  /\ map fst (export_record cache_candidate (VInt 42)) = map VStr export_fields
  /\ existsb (fun kv => py_eq (snd kv) (VList [VInt 11; VInt 12])
                        || py_eq (snd kv) (VInt 11)
                        || py_eq (snd kv) (VInt 12))
             (export_record cache_candidate (VInt 42)) = false.
Proof. split; [reflexivity | split; reflexivity]. Qed.

Lemma ambiguity_is_listed_apart_witness :
  exists st',
    loop_body ascii_runtime sample_map start cache_candidate two_same = Done st'
    /\ exported st' = [] ++ [export_record cache_candidate (VInt 42)]
    /\ map fst (export_record cache_candidate (VInt 42)) = map VStr export_fields
    /\ ambiguous st' =
         [] ++ [[(VStr "title", VStr "Add caching layer");
                 (VStr "matches", VList [VInt 11; VInt 12])]]
    /\ List.length (ambiguous st') = 1.
Proof.
  apply (ambiguity_is_listed_apart ascii_runtime sample_map cache_candidate
           two_same start
           "Add caching layer"
           [remote_cache 11 good_body; remote_cache 12 ""] (VInt 42)
           eq_refl (conj eq_refl (conj eq_refl eq_refl)) eq_refl).
  simpl. lia.
Defined.

Lemma listing_failure_aborts_parent_failure_does_not_witness :
  main ascii_runtime
       ([cache_candidate; index_candidate]
        ++ cache_candidate :: [index_candidate])
       sample_map flaky = Exit 1
  /\ try_except (gh_sub_issue_parent failed) VNone = VNone
  /\ exists r, main ascii_runtime [cache_candidate; index_candidate]
                    sample_map no_lookups
               = Done r
               /\ List.length (written r) = n_exported r.
Proof.
  destruct (listing_failure_aborts_parent_failure_does_not ascii_runtime)
    as [Habort [Hlocal Hrun]].
  split; [|split].
  - eapply (Habort sample_map flaky); [reflexivity | reflexivity |].
    left. discriminate.
  - apply Hlocal. left. discriminate.
  - apply Hrun.
    + intros c [<- | [<- | []]]; reflexivity.
    + intros i. exists [remote_cache 11 good_body]. repeat split.
Defined.

Lemma scanned_is_correct_plus_exported_witness :
  exists r,
    main ascii_runtime four_candidates sample_map flaky_free = Done r
    /\ n_scanned r = 4 /\ n_fully_correct r = 1 /\ n_exported r = 3
    /\ n_ambiguous r = 1
    /\ n_scanned r = n_fully_correct r + n_exported r
    /\ n_ambiguous r <= n_exported r.
Proof.
  eexists. split; [reflexivity|].
  do 4 (split; [reflexivity|]).
  destruct (scanned_is_correct_plus_exported ascii_runtime four_candidates
              sample_map flaky_free _ eq_refl) as [H1 [H2 _]].
  split; [exact H1 | exact H2].
Defined.

End CompareFacts.

(* ================================================================= *)
(** ** More on the normaliser and the extraction run *)

Module ParseExtras.
Import PyFacts ParseLocalTicketFiles ParseSpec ParseFacts.

(** *** Stripping and splitting *)

Lemma lstrip_head (s : string) :
  lstrip s = ""%string
  \/ exists c s', lstrip s = String c s' /\ is_space c = false.
Proof.
  induction s as [|c s IH]; simpl; [now left|].
  destruct (is_space c) eqn:E; [exact IH | right; now exists c, s].
Qed.

Lemma rstrip_idem (s : string) : rstrip (rstrip s) = rstrip s.
Proof.
  induction s as [|c s IH]; simpl; [reflexivity|].
  destruct (is_space c && String.eqb (rstrip s) "") eqn:E; [reflexivity|].
  simpl. now rewrite IH, E.
Qed.

Lemma strip_idem (s : string) : strip (strip s) = strip s.
Proof.
  unfold strip.
  assert (H : lstrip (rstrip (lstrip s)) = rstrip (lstrip s)).
  { destruct (lstrip_head s) as [-> | [c [s' [-> Hc]]]]; [reflexivity|].
    simpl. rewrite Hc. simpl. now rewrite Hc. }
  rewrite H. apply rstrip_idem.
Qed.

Lemma lstrip_stretch (s : string) :
  exists pre, s = (pre ++ lstrip s)%string.
Proof.
  induction s as [|c s [pre IH]]; simpl; [now exists ""%string|].
  destruct (is_space c); [|now exists ""%string].
  exists (String c pre). simpl. now rewrite <- IH.
Qed.

Lemma rstrip_stretch (s : string) :
  exists post, s = (rstrip s ++ post)%string.
Proof.
  induction s as [|c s [post IH]]; simpl; [now exists ""%string|].
  destruct (is_space c && String.eqb (rstrip s) "") eqn:E.
  - exists (String c s). reflexivity.
  - exists post. simpl. now rewrite <- IH.
Qed.

(** The ASCII [strip] is a [strip]. *)
Lemma ascii_strip_trims : strip_trims ascii_runtime.
Proof.
  split; cbn [str_strip ascii_runtime]; [|exact strip_idem].
  intros s. unfold strip.
  destruct (lstrip_stretch s) as [pre Hpre].
  destruct (rstrip_stretch (lstrip s)) as [post Hpost].
  exists pre, post. now rewrite <- Hpost.
Qed.

Lemma has_char_app (c : ascii) (a b : string) :
  has_char c (a ++ b)%string = has_char c a || has_char c b.
Proof.
  induction a as [|c' a IH]; simpl; [reflexivity|].
  now rewrite IH, orb_assoc.
Qed.

Lemma has_char_stretch (c : ascii) (pre mid post : string) :
  has_char c (pre ++ mid ++ post)%string = false -> has_char c mid = false.
Proof.
  rewrite !has_char_app. intros H.
  apply orb_false_iff in H as [_ H]. now apply orb_false_iff in H as [H _].
Qed.

Lemma split_comma_nonempty (s : string) : split_comma s <> [].
Proof.
  induction s as [|c s IH]; simpl; [discriminate|].
  destruct (Ascii.eqb c ","); [discriminate|].
  destruct (split_comma s); [contradiction | discriminate].
Qed.

Lemma split_comma_pieces (s : string) :
  Forall (fun piece => has_char ","%char piece = false) (split_comma s).
Proof.
  induction s as [|c s IH]; simpl; [repeat constructor|].
  destruct (Ascii.eqb c ",") eqn:E; [constructor; [reflexivity | exact IH]|].
  destruct (split_comma s) as [|piece rest]; [repeat constructor; simpl; now rewrite E|].
  inversion IH; subst. constructor; [simpl; now rewrite E | assumption].
Qed.

Lemma split_comma_single (l : string) :
  has_char ","%char l = false -> split_comma l = [l].
Proof.
  induction l as [|c l IH]; simpl; [reflexivity|].
  intros H. apply orb_false_iff in H as [H1 H2]. now rewrite H1, (IH H2).
Qed.

Lemma split_comma_cons (l rest : string) :
  has_char ","%char l = false ->
  split_comma (l ++ String ","%char rest)%string = l :: split_comma rest.
Proof.
  induction l as [|c l IH]; simpl; [reflexivity|].
  intros H. apply orb_false_iff in H as [H1 H2]. now rewrite H1, (IH H2).
Qed.

Lemma split_comma_join (pieces : list string) :
  pieces <> [] ->
  Forall (fun piece => has_char ","%char piece = false) pieces ->
  split_comma (join_comma pieces) = pieces.
Proof.
  induction pieces as [|piece rest IH]; intros Hne Hall; [contradiction|].
  inversion Hall as [|? ? Hp Hrest]; subst.
  destruct rest as [|piece' rest]; [now apply split_comma_single|].
  change (join_comma (piece :: piece' :: rest))
    with (piece ++ String ","%char (join_comma (piece' :: rest)))%string.
  rewrite split_comma_cons by exact Hp. f_equal. now apply IH.
Qed.

(** *** Labels *)

Section Labels.

Variable rt : runtime.

Lemma normalize_labels_field (d : dict) :
  dict_get (normalize_ticket rt d) "labels" =
    normalize_labels rt
      (dict_get d "labels" <or> dict_get d "tags" <or> VList []).
Proof. reflexivity. Qed.

Lemma first_present_two (d : dict) (a b : string) (default v : value) :
  first_present d [a; b] = Some v ->
  dict_get d a <or> dict_get d b <or> default = v.
Proof.
  unfold first_present. simpl.
  destruct (truthy (dict_get d a)) eqn:E1.
  - intros [= <-]. now rewrite !(py_or_truthy (dict_get d a)).
  - rewrite (py_or_falsy _ _ E1).
    destruct (truthy (dict_get d b)) eqn:E2; [|discriminate].
    intros [= <-]. now rewrite py_or_truthy.
Qed.

Lemma split_labels_clean (s : string) :
  strip_trims rt ->
  exists ls, split_labels rt s = map VStr ls /\ Forall (clean_label rt) ls.
Proof.
  intros [Hstretch Hidem]. unfold split_labels.
  exists (map (str_strip rt)
              (filter (fun piece => truthy (VStr (str_strip rt piece)))
                      (split_comma s))).
  split; [now rewrite map_map|].
  pose proof (split_comma_pieces s) as Hp.
  induction (split_comma s) as [|piece rest IH]; simpl; [constructor|].
  inversion Hp as [|? ? H1 H2]; subst.
  destruct (negb (String.eqb (str_strip rt piece) "")) eqn:E;
    [|now apply IH].
  simpl. constructor; [|now apply IH].
  repeat split.
  - apply negb_true_iff, String.eqb_neq in E. exact E.
  - destruct (Hstretch piece) as [pre [post Hpiece]].
    rewrite Hpiece in H1. exact (has_char_stretch _ _ _ _ H1).
  - apply Hidem.
Qed.

(** X1. Whatever characters [strip] takes for white space, as long as
    it returns a stretch of its argument and leaves its own results
    alone: when a record's labels (under [labels], else [tags]) are
    one string, the normalised labels are a list of strings, each of
    them non-empty, free of commas, and with nothing left at its ends
    for [strip] to remove. *)
Theorem string_labels_are_clean (d : dict) (s : string) :
  strip_trims rt ->
  first_present d ["labels"; "tags"] = Some (VStr s) ->
  exists ls,
    dict_get (normalize_ticket rt d) "labels" = VList (map VStr ls)
    /\ Forall (clean_label rt) ls.
Proof.
  intros Hstrip H.
  rewrite normalize_labels_field, (first_present_two _ _ _ _ _ H).
  destruct (split_labels_clean s Hstrip) as [ls [Hls Hclean]].
  exists ls. simpl. now rewrite Hls.
Qed.

Lemma join_comma_nonempty (l : string) (rest : list string) :
  l <> ""%string -> join_comma (l :: rest) <> ""%string.
Proof.
  intros Hl. destruct rest; simpl; [exact Hl|].
  destruct l; [contradiction | discriminate].
Qed.

Lemma strip_clean_labels (xs : list string) :
  Forall (clean_label rt) xs ->
  map (fun piece => VStr (str_strip rt piece))
      (filter (fun piece => truthy (VStr (str_strip rt piece))) xs)
  = map VStr xs.
Proof.
  induction 1 as [|x xs [Hne [_ Hs]] _ IH]; [reflexivity|].
  cbn [filter]. rewrite Hs. cbn [truthy].
  apply String.eqb_neq in Hne. rewrite Hne. cbn [negb map].
  rewrite Hs. f_equal. exact IH.
Qed.

Lemma split_labels_join (ls : list string) :
  ls <> [] ->
  Forall (clean_label rt) ls ->
  split_labels rt (join_comma ls) = map VStr ls.
Proof.
  intros Hne Hclean. destruct ls as [|l ls]; [contradiction|].
  unfold split_labels. rewrite split_comma_join.
  - now apply strip_clean_labels.
  - discriminate.
  - eapply Forall_impl; [|exact Hclean]. now intros x [_ [Hx _]].
Qed.

(** X2. Labels written as one comma-separated string come back as they
    were joined: for labels [l1 .. ln] (at least one) that are not
    empty, hold no comma and are left as they are by [strip], a record
    whose [labels] is [','.join] of them normalises to exactly the
    list [[l1; ..; ln]], in order.  Nothing is assumed of [strip]. *)
Theorem joined_labels_come_back (d : dict) (ls : list string) :
  ls <> [] ->
  Forall (clean_label rt) ls ->
  dict_get d "labels" = VStr (join_comma ls) ->
  dict_get (normalize_ticket rt d) "labels" = VList (map VStr ls).
Proof.
  intros Hne Hclean Hd. rewrite normalize_labels_field, Hd.
  destruct ls as [|l ls]; [contradiction|].
  assert (Ht : truthy (VStr (join_comma (l :: ls))) = true).
  { simpl. apply negb_true_iff, String.eqb_neq, join_comma_nonempty.
    inversion Hclean as [|? ? [Hl _] _]. exact Hl. }
  rewrite !(py_or_truthy (VStr (join_comma (l :: ls)))) by exact Ht.
  cbn [normalize_labels]. now rewrite (split_labels_join _ Hne Hclean).
Qed.

(** X3. A record that holds no truthy value under any of the keys the
    normaliser reads normalises to the neutral ticket: empty strings,
    an empty label list, and nulls. *)
Theorem empty_record_is_neutral (d : dict) :
  (forall a, In a all_aliases -> truthy (dict_get d a) = false) ->
  normalize_ticket rt d = neutral_ticket.
Proof.
  intros H. unfold normalize_ticket, neutral_ticket.
  repeat rewrite (py_or_falsy (dict_get d _))
    by (apply H; unfold all_aliases; simpl; tauto).
  reflexivity.
Qed.

(** X4. Normalised points are always a number or null: [None], an
    [int] or a [float], whatever the record holds. *)
Theorem points_are_number_or_null (d : dict) :
  match dict_get (normalize_ticket rt d) "points" with
  | VNone | VInt _ | VFloat _ => True
  | _ => False
  end.
Proof.
  rewrite normalize_points_field. unfold normalize_points.
  destruct (is_none _) eqn:E.
  - destruct (_ <or> VNone); try discriminate. exact I.
  - destruct (py_int rt _); [exact I|]. now destruct (py_float rt _).
Qed.

(** X5. [int] is tried first, also on floats: a record whose points
    are a finite float gets them truncated toward zero to an integer;
    only an infinite or NaN float stays a float. *)
Theorem float_points_are_truncated (d : dict) (f : spec_float) :
  first_present d ["points"; "estimate"] = Some (VFloat f) ->
  dict_get (normalize_ticket rt d) "points" =
    match f with
    | S754_finite s m e =>
        VInt (cond_Zopp s (if (0 <=? e)%Z then Zpos m * 2 ^ e
                           else Zpos m / 2 ^ (- e)))%Z
    | S754_zero _ => VInt 0
    | _ => VFloat f
    end.
Proof.
  intros H. rewrite normalize_points_field, (first_present_two _ _ _ _ _ H).
  destruct f; reflexivity.
Qed.

End Labels.

(** *** Loops that may raise *)

Section ForEach.

Context {A S : Type} (body : S -> A -> result S).

Lemma for_each_app (xs ys : list A) : forall st,
  for_each body st (xs ++ ys) =
    (st' <- for_each body st xs ;; for_each body st' ys).
Proof.
  induction xs as [|x xs IH]; intros st; simpl; [reflexivity|].
  destruct (body st x); simpl; [apply IH | reflexivity].
Qed.

(** A preorder that every pass respects holds across the loop. *)
Lemma for_each_steps (R : S -> S -> Prop) (xs : list A) :
  (forall st, R st st) ->
  (forall a b c, R a b -> R b c -> R a c) ->
  (forall st x st', In x xs -> body st x = Ok st' -> R st st') ->
  forall st st', for_each body st xs = Ok st' -> R st st'.
Proof.
  intros Hrefl Htrans. induction xs as [|x xs IH]; intros Hstep st st' H;
    simpl in H.
  - injection H as <-. apply Hrefl.
  - destruct (body st x) as [st1|] eqn:E; [|discriminate]. simpl in H.
    apply (Htrans _ st1).
    + apply (Hstep st x); [now left | exact E].
    + apply IH; [|exact H]. intros s y s' Hy. apply Hstep. now right.
Qed.

(** A loop that raises raises in one of its passes. *)
Lemma for_each_raise (xs : list A) : forall st e,
  for_each body st xs = Raise e ->
  exists st1 x, In x xs /\ body st1 x = Raise e.
Proof.
  induction xs as [|x xs IH]; intros st e H; simpl in H; [discriminate|].
  destruct (body st x) as [st1|e1] eqn:E; simpl in H.
  - destruct (IH _ _ H) as [s [y [Hy Hr]]]. exists s, y. split; [now right | exact Hr].
  - injection H as <-. exists st, x. split; [now left | exact E].
Qed.

(** A loop that ends normally ran every pass normally. *)
Lemma for_each_ok_each (xs : list A) : forall st st',
  for_each body st xs = Ok st' ->
  forall x, In x xs -> exists s1 s2, body s1 x = Ok s2.
Proof.
  induction xs as [|x xs IH]; intros st st' H y Hy; simpl in *; [contradiction|].
  destruct (body st x) as [st1|] eqn:E; [|discriminate]. simpl in H.
  destruct Hy as [<- | Hy]; [now exists st, st1 | now apply (IH _ _ H)].
Qed.

End ForEach.

(** *** What one record does to the run *)

Lemma gentle_refl (st : run_state) : gentle st st.
Proof. repeat split; auto. exists []. now rewrite app_nil_r. Qed.

Lemma gentle_trans (a b c : run_state) : gentle a b -> gentle b c -> gentle a c.
Proof.
  intros [E1 [[m1 X1] S1]] [E2 [[m2 X2] S2]]. repeat split.
  - congruence.
  - exists (m1 ++ m2). now rewrite X2, X1, app_assoc.
  - auto.
Qed.

Lemma consider_gentle (st : run_state) (c : dict) (st' : run_state) :
  consider st c = Ok st' -> gentle st st'.
Proof.
  unfold consider. destruct (negb (truthy (dict_get c "title"))).
  - intros [= <-]. apply gentle_refl.
  - unfold set_contains. destruct (hashable _); [|discriminate]. simpl.
    destruct (set_mem _ _) eqn:Em; intros [= <-]; [apply gentle_refl|].
    repeat split; simpl.
    + now exists [c].
    + unfold synced, set_add. simpl. rewrite Em. intros ->.
      now rewrite map_app.
Qed.

(** [consider] raises exactly on a truthy title that cannot be hashed. *)
Lemma consider_raises (st : run_state) (c : dict) (e : exn) :
  consider st c = Raise e <-> e = TypeError /\ bad_title c.
Proof.
  unfold consider, bad_title, title_of, set_contains.
  destruct (truthy (dict_get c "title")); simpl.
  - destruct (hashable (dict_get c "title")); simpl.
    + destruct (set_mem _ _); split; try discriminate; intros [_ [_ H]];
        discriminate.
    + split; [intros [= <-]; auto | intros [-> _]; reflexivity].
  - split; [discriminate | intros [_ [H _]]; discriminate].
Qed.

(** *** The run, file by file *)

Section Run.

Variable rt : runtime.

Lemma records_gentle (ds : list dict) (st st' : run_state) :
  for_each (fun st d => consider st (normalize_ticket rt d)) st ds = Ok st' ->
  gentle st st'.
Proof.
  apply for_each_steps; [apply gentle_refl | apply gentle_trans|].
  intros s d s' _. apply consider_gentle.
Qed.

Lemma literals_gentle (lits : list value) (st st' : run_state) :
  for_each (process_literal rt) st lits = Ok st' -> gentle st st'.
Proof.
  apply for_each_steps; [apply gentle_refl | apply gentle_trans|].
  intros s lit s' _. rewrite process_literal_records. apply records_gentle.
Qed.

Lemma error_records_cons (f : file) (files : list file) :
  error_records (f :: files) = error_records [f] ++ error_records files.
Proof. unfold error_records. simpl. now rewrite app_nil_r. Qed.

Lemma file_step (st : run_state) (f : file) (st' : run_state) :
  process_file rt st f = Ok st' ->
  errors st' = errors st ++ error_records [f]
  /\ extends st st' /\ (synced st -> synced st').
Proof.
  unfold process_file, extract_literals_from_file, error_records. simpl.
  destruct (parsed f) as [message|body].
  - intros [= <-]. simpl. repeat split; auto.
    exists []. now rewrite app_nil_r.
  - intros H. apply literals_gentle in H as [He [Hx Hs]].
    rewrite He. simpl. rewrite app_nil_r. auto.
Qed.

Lemma files_run (files : list file) : forall st st',
  for_each (process_file rt) st files = Ok st' ->
  errors st' = errors st ++ error_records files
  /\ extends st st' /\ (synced st -> synced st').
Proof.
  induction files as [|f files IH]; intros st st' H; simpl in H.
  - injection H as <-. simpl. rewrite app_nil_r. repeat split; auto.
    exists []. now rewrite app_nil_r.
  - destruct (process_file rt st f) as [st1|] eqn:E; [|discriminate].
    simpl in H. apply file_step in E as [E1 [[m1 X1] S1]].
    apply IH in H as [E2 [[m2 X2] S2]].
    rewrite error_records_cons. repeat split.
    + now rewrite E2, E1, app_assoc.
    + exists (m1 ++ m2). now rewrite X2, X1, app_assoc.
    + auto.
Qed.

(** X6. From a file that parses, [extract_literals_from_file] returns
    exactly the values of its top-level assignments and expression
    statements that are list, tuple or dict literals and evaluate:
    nothing else, none left out, at most one per statement.  A literal
    that does not evaluate is passed over, not an error. *)
Theorem extracted_literals_are_the_literals (f : file) (body : list stmt) :
  parsed f = inr body ->
  exists lits,
    extract_literals_from_file f = inr lits
    /\ (forall v, In v lits <-> exists node, In node body /\ holds_literal v node)
    /\ List.length lits <= List.length body.
Proof.
  intros Hp. unfold extract_literals_from_file. rewrite Hp.
  eexists. split; [reflexivity|]. split.
  - intros v. rewrite in_flat_map. unfold holds_literal.
    split; intros [node [Hin H]]; exists node; (split; [exact Hin|]).
    + destruct node as [cls ev|cls ev|]; [| |contradiction];
        destruct cls, ev; simpl in H; try contradiction;
        destruct H as [<- | []]; eexists; (split; [|eauto]); discriminate.
    + destruct H as [cls [Hc [-> | ->]]]; destruct cls; simpl; auto;
        contradiction.
  - clear Hp. induction body as [|node body IH]; simpl; [lia|].
    rewrite length_app.
    assert (List.length
              match node with
              | Assign cls ev => literal_of cls ev
              | Expr cls ev => literal_of cls ev
              | OtherStmt => []
              end <= 1).
    { destruct node as [cls [o|e]|cls [o|e]|]; try destruct cls; simpl; lia. }
    lia.
Qed.

(** X7. A run that ends normally has logged one error record, with the
    file's path and the message, for every visit to a file that could
    not be read or parsed, in the order of the visits; a file that two
    patterns match is logged twice. *)
Theorem errors_are_the_unparsable_visits
    (glob : string -> list file) (st : run_state) :
  main rt glob = Ok st ->
  errors st = error_records (flat_map glob PATTERNS).
Proof. intros H. now apply files_run in H as [H _]. Qed.

(** X8. A run that ends normally ends with the seen titles being
    exactly the titles of its candidates (the model lists a set in
    insertion order): no title is marked seen without its ticket being
    kept, and the other way. *)
Theorem seen_titles_are_the_candidates_titles
    (glob : string -> list file) (st : run_state) :
  main rt glob = Ok st ->
  seen_titles st = map title_of (candidate_list st).
Proof.
  intros H. apply files_run in H as [_ [_ H]]. now apply H.
Qed.

(** X9. Visiting more files never disturbs what was found: if the run
    over [fs ++ gs] ends normally, so does the run over [fs] alone, and
    its candidates are the first candidates of the longer run, in the
    same order. *)
Theorem earlier_candidates_stay_first
    (fs gs : list file) (st2 : run_state) :
  run rt (fs ++ gs) = Ok st2 ->
  exists st1, run rt fs = Ok st1 /\ extends st1 st2.
Proof.
  unfold run. rewrite for_each_app.
  destruct (for_each (process_file rt) initial fs) as [st1|]; [|discriminate].
  simpl. intros H. exists st1. split; [reflexivity|].
  now apply files_run in H as [_ [H _]].
Qed.

Lemma in_stream (files : list file) (c : dict) :
  In c (map (normalize_ticket rt) (flat_map records_of_file files)) <->
  exists f lits lit d,
    In f files /\ extract_literals_from_file f = inr lits /\ In lit lits
    /\ In d (records_of_literal lit) /\ c = normalize_ticket rt d.
Proof.
  rewrite in_map_iff. split.
  - intros [d [<- Hd]]. apply in_flat_map in Hd as [f [Hf Hd]].
    unfold records_of_file in Hd.
    destruct (extract_literals_from_file f) as [|lits] eqn:E; [contradiction|].
    apply in_flat_map in Hd as [lit [Hl Hd]]. now exists f, lits, lit, d.
  - intros [f [lits [lit [d [Hf [E [Hl [Hd ->]]]]]]]]. exists d.
    split; [reflexivity|]. apply in_flat_map. exists f. split; [exact Hf|].
    unfold records_of_file. rewrite E. apply in_flat_map. now exists lit.
Qed.

(** X10. The loop of [main] over the files it visits (lines 96-139,
    before anything is written) raises if and only if some record it
    normalises has a title that is truthy and cannot be hashed (a list
    or a dict); the exception is then a [TypeError], and nothing else
    stops the loop.  What writing the result does afterwards is not
    covered. *)
Theorem run_raises_on_unhashable_title_only (glob : string -> list file) :
  let files := flat_map glob PATTERNS in
  (forall e, run rt files = Raise e -> e = TypeError)
  /\ ((exists e, run rt files = Raise e)
      <-> exists c, In c (stream rt glob) /\ bad_title c).
Proof.
  intros files.
  assert (Hr : forall e, run rt files = Raise e ->
                 e = TypeError
                 /\ exists c, In c (stream rt glob) /\ bad_title c).
  { intros e H. unfold run in H.
    apply for_each_raise in H as [s1 [f [Hf H]]]. unfold process_file in H.
    destruct (extract_literals_from_file f) as [|lits] eqn:E; [discriminate|].
    apply for_each_raise in H as [s2 [lit [Hl H]]].
    rewrite process_literal_records in H.
    apply for_each_raise in H as [s3 [d [Hd H]]].
    apply consider_raises in H as [-> Hbad]. split; [reflexivity|].
    exists (normalize_ticket rt d). split; [|exact Hbad].
    apply in_stream. now exists f, lits, lit, d. }
  split; [intros e H; now apply Hr in H|]. split.
  - intros [e H]. now apply Hr in H.
  - intros [c [Hin Hbad]]. destruct (run rt files) as [st|e] eqn:Hm;
      [|now exists e]. exfalso.
    apply in_stream in Hin as [f [lits [lit [d [Hf [E [Hl [Hd ->]]]]]]]].
    unfold run in Hm.
    destruct (for_each_ok_each _ _ _ _ Hm f Hf) as [s1 [s1' H1]].
    unfold process_file in H1. rewrite E in H1.
    destruct (for_each_ok_each _ _ _ _ H1 lit Hl) as [s2 [s2' H2]].
    rewrite process_literal_records in H2.
    destruct (for_each_ok_each _ _ _ _ H2 d Hd) as [s3 [s3' H3]].
    assert (consider s3 (normalize_ticket rt d) = Raise TypeError) as H
      by now apply consider_raises.
    congruence.
Qed.

End Run.

(** *** Visiting a file again *)

Section Again.

Lemma keep_fst_mono (sc : pyset * list dict) (c : dict) (t : value) :
  In t (fst sc) -> In t (fst (keep sc c)).
Proof.
  unfold keep, set_add. destruct (negb _ || _) eqn:E; [auto|].
  apply orb_false_iff in E as [_ E]. simpl. rewrite E.
  intros H. apply in_or_app. now left.
Qed.

Lemma fold_keep_fst_mono (cs : list dict) : forall sc t,
  In t (fst sc) -> In t (fst (fold_left keep cs sc)).
Proof.
  induction cs as [|c cs IH]; intros sc t H; simpl; [exact H|].
  apply IH. now apply keep_fst_mono.
Qed.

Lemma keep_has (sc : pyset * list dict) (c : dict) :
  str_titled c -> truthy (title_of c) = true ->
  In (title_of c) (fst (keep sc c)).
Proof.
  unfold str_titled, keep. intros Hs Ht.
  destruct (title_of c) as [| | | |t| | |] eqn:Et; try discriminate.
  rewrite Ht. simpl. destruct (set_mem (VStr t) (fst sc)) eqn:Em.
  - now apply set_mem_str.
  - simpl. apply set_add_str_In. now left.
Qed.

Lemma fold_keep_has (cs : list dict) : forall sc c,
  Forall str_titled cs -> In c cs -> truthy (title_of c) = true ->
  In (title_of c) (fst (fold_left keep cs sc)).
Proof.
  induction cs as [|c0 cs IH]; intros sc c Hall Hin Ht; [contradiction|].
  inversion Hall as [|? ? H0 Hcs]; subst. simpl.
  destruct Hin as [<- | Hin].
  - apply fold_keep_fst_mono. now apply keep_has.
  - now apply IH.
Qed.

Lemma fold_keep_noop (cs : list dict) (sc : pyset * list dict) :
  Forall str_titled cs ->
  (forall c, In c cs -> truthy (title_of c) = true -> In (title_of c) (fst sc)) ->
  fold_left keep cs sc = sc.
Proof.
  induction cs as [|c cs IH]; intros Hall Hseen; [reflexivity|].
  inversion Hall as [|? ? H0 Hcs]; subst. simpl.
  assert (keep sc c = sc) as ->.
  { unfold keep. destruct (truthy (title_of c)) eqn:Ht; [|reflexivity]. simpl.
    unfold str_titled in H0.
    destruct (title_of c) as [| | | |t| | |] eqn:Et; try discriminate.
    assert (set_mem (VStr t) (fst sc) = true) as ->; [|reflexivity].
    apply set_mem_str. rewrite <- Et. apply Hseen; [now left|].
    now rewrite Et. }
  apply IH; [exact Hcs|]. intros c' Hin. apply Hseen. now right.
Qed.

(** X11. Visiting again files that were already visited changes
    nothing in the candidates: when every title is a string, the run
    over [fs] followed by any files [gs] taken from [fs] ends with the
    candidates and seen titles of the run over [fs] alone.  (The
    patterns of [main] overlap, so every file is visited more than
    once.) *)
Theorem revisited_files_add_nothing
    (rt : runtime) (fs gs : list file) :
  Forall str_titled (map (normalize_ticket rt) (flat_map records_of_file fs)) ->
  (forall g, In g gs -> In g fs) ->
  exists st1 st2,
    run rt fs = Ok st1 /\ run rt (fs ++ gs) = Ok st2
    /\ candidate_list st2 = candidate_list st1
    /\ seen_titles st2 = seen_titles st1.
Proof.
  intros Hall Hsub.
  set (S1 := map (normalize_ticket rt) (flat_map records_of_file fs)) in *.
  set (S2 := map (normalize_ticket rt) (flat_map records_of_file gs)).
  assert (Hincl : forall c, In c S2 -> In c S1).
  { intros c Hc. apply in_map_iff in Hc as [d [<- Hd]].
    apply in_flat_map in Hd as [g [Hg Hd]]. apply in_map.
    apply in_flat_map. exists g. split; [now apply Hsub | exact Hd]. }
  assert (Hall2 : Forall str_titled S2).
  { apply Forall_forall. intros c Hc. rewrite Forall_forall in Hall.
    now apply Hall, Hincl. }
  destruct (for_each_files rt fs initial Hall) as [st1 [H1 T1]].
  assert (Hboth : Forall str_titled
            (map (normalize_ticket rt) (flat_map records_of_file (fs ++ gs)))).
  { rewrite flat_map_app, map_app. apply Forall_app. now split. }
  destruct (for_each_files rt (fs ++ gs) initial Hboth) as [st2 [H2 T2]].
  exists st1, st2. split; [exact H1|]. split; [exact H2|].
  rewrite flat_map_app, map_app, fold_left_app in T2.
  fold S1 in T1, T2. fold S2 in T2. rewrite <- T1 in T2.
  rewrite fold_keep_noop in T2; [| exact Hall2 |].
  - unfold tickets in T2. injection T2 as -> ->. now split.
  - intros c Hc Ht. rewrite T1. apply fold_keep_has; auto.
Qed.

End Again.

(** *** Concrete runs *)

Lemma string_labels_are_clean_witness :
  first_present tagged_record ["labels"; "tags"]
    = Some (VStr " api , , backend,ui ")
  /\ dict_get (normalize_ticket ascii_runtime tagged_record) "labels"
     = VList [VStr "api"; VStr "backend"; VStr "ui"]
  /\ exists ls,
       dict_get (normalize_ticket ascii_runtime tagged_record) "labels"
         = VList (map VStr ls)
       /\ Forall (clean_label ascii_runtime) ls.
Proof.
  split; [reflexivity|]. split; [reflexivity|].
  apply (string_labels_are_clean ascii_runtime tagged_record
           " api , , backend,ui " ascii_strip_trims). reflexivity.
Defined.

Lemma joined_labels_come_back_witness :
  Forall (clean_label ascii_runtime) ["api"; "backend"]%string
  /\ dict_get (normalize_ticket ascii_runtime labelled_record) "labels"
     = VList (map VStr ["api"; "backend"]%string).
Proof.
  assert (H : Forall (clean_label ascii_runtime) ["api"; "backend"]%string)
    by (repeat constructor; discriminate).
  split; [exact H|].
  apply (joined_labels_come_back ascii_runtime labelled_record
           ["api"; "backend"]%string);
    [discriminate | exact H | reflexivity].
Defined.

Lemma empty_record_is_neutral_witness :
  (forall a, In a all_aliases -> truthy (dict_get stray_record a) = false)
  /\ (forall rt, normalize_ticket rt stray_record = neutral_ticket).
Proof.
  assert (H : forall a, In a all_aliases ->
                        truthy (dict_get stray_record a) = false).
  { intros a Ha. unfold all_aliases in Ha. simpl in Ha.
    repeat (destruct Ha as [<- | Ha]; [reflexivity|]). contradiction. }
  split; [exact H|]. intro rt. apply (empty_record_is_neutral rt _ H).
Defined.

Lemma float_points_are_truncated_witness :
  first_present half_points_record ["points"; "estimate"]
    = Some (VFloat (S754_finite false 5 (-1)))
  /\ (forall rt, dict_get (normalize_ticket rt half_points_record) "points"
                 = VInt 2).
Proof.
  split; [reflexivity|]. intro rt.
  apply (float_points_are_truncated rt half_points_record
           (S754_finite false 5 (-1))). reflexivity.
Defined.

Lemma extracted_literals_are_the_literals_witness :
  extract_literals_from_file mixed_file
    = inr [VList [VDict tagged_record]; VTuple [VInt 1; VInt 2]]
  /\ exists lits,
       extract_literals_from_file mixed_file = inr lits
       /\ (forall v, In v lits <->
              exists node, In node [ Assign EList (Ok (VList [VDict tagged_record]));
                                     Expr EOther (Raise ValueError);
                                     Assign EDict (Raise ValueError);
                                     OtherStmt;
                                     Expr ETuple (Ok (VTuple [VInt 1; VInt 2])) ]
                           /\ holds_literal v node)
       /\ List.length lits <= 5.
Proof.
  split; [reflexivity|].
  apply (extracted_literals_are_the_literals mixed_file). reflexivity.
Defined.

Lemma errors_are_the_unparsable_visits_witness :
  error_records (flat_map broken_workspace PATTERNS)
    = [ [(VStr "file", VStr "create_broken.py");
         (VStr "error", VStr "invalid syntax")];
        [(VStr "file", VStr "create_broken.py");
         (VStr "error", VStr "invalid syntax")] ]
  /\ (forall rt, exists st,
         main rt broken_workspace = Ok st
         /\ errors st = error_records (flat_map broken_workspace PATTERNS)).
Proof.
  split; [reflexivity|]. intro rt. eexists. split; [reflexivity|].
  apply (errors_are_the_unparsable_visits rt broken_workspace). reflexivity.
Defined.

Lemma seen_titles_are_the_candidates_titles_witness :
  map path (flat_map broken_workspace PATTERNS)
    = ["create_broken.py"; "create_mixed.py";
       "create_broken.py"; "create_mixed.py"]%string
  /\ (forall rt, exists st,
         main rt broken_workspace = Ok st
         /\ seen_titles st = [VStr "Rotate keys"]
         /\ seen_titles st = map title_of (candidate_list st)).
Proof.
  split; [reflexivity|]. intro rt. eexists. split; [reflexivity|].
  split; [reflexivity|].
  apply (seen_titles_are_the_candidates_titles rt broken_workspace). reflexivity.
Defined.

Lemma earlier_candidates_stay_first_witness :
  List.length [mixed_file] = 1
  /\ (forall rt, exists st2,
         run rt ([mixed_file] ++ two_files "create_*.py") = Ok st2
         /\ map title_of (candidate_list st2)
            = [VStr "Rotate keys"; VStr "Add cache"; VStr "Add index"]
         /\ exists st1, run rt [mixed_file] = Ok st1 /\ extends st1 st2).
Proof.
  split; [reflexivity|]. intro rt. eexists. split; [reflexivity|].
  split; [reflexivity|].
  apply (earlier_candidates_stay_first rt [mixed_file] (two_files "create_*.py")).
  reflexivity.
Defined.

Lemma revisited_files_add_nothing_witness :
  (forall g, In g [mixed_file] -> In g [broken_file; mixed_file])
  /\ (forall rt, exists st1 st2,
         run rt [broken_file; mixed_file] = Ok st1
         /\ run rt ([broken_file; mixed_file] ++ [mixed_file]) = Ok st2
         /\ candidate_list st2 = candidate_list st1
         /\ seen_titles st2 = seen_titles st1).
Proof.
  assert (H : forall g, In g [mixed_file] -> In g [broken_file; mixed_file])
    by (intros g [<- | []]; right; now left).
  split; [exact H|]. intro rt.
  apply (revisited_files_add_nothing rt [broken_file; mixed_file] [mixed_file]);
    [repeat constructor | exact H].
Defined.

(** A title that is a list stops the run. *)
Example list_title_raises (rt : runtime) :
  main rt list_titled_workspace = Raise TypeError.
Proof. reflexivity. Qed.

End ParseExtras.

(* ================================================================= *)
(** ** More on the reconciler *)

Module CompareExtras.
Import PyFacts CompareAndExport CompareSpec CompareFacts.

(** *** How the pieces fail *)

Lemma numbers_of_raises (ms : list dict) (e : exn) :
  numbers_of ms = Raise e -> e = KeyError.
Proof.
  induction ms as [|m ms IH]; simpl; [discriminate|].
  unfold dict_getitem. simpl hashable. cbv iota.
  destruct (dict_find (VStr "number") m); simpl; [|now intros [= <-]].
  destruct (numbers_of ms); simpl; [discriminate|].
  intros [= <-]. now apply IH.
Qed.

Lemma map_parent_raises (p : value) (issue_map : dict) (e : exn) :
  map_parent_canonical_to_number p issue_map = Raise e <->
  e = TypeError /\ bad_parent p.
Proof.
  unfold map_parent_canonical_to_number, bad_parent, dict_contains, dict_getitem.
  destruct (truthy p); simpl;
    [|split; [discriminate | intros [_ [H _]]; discriminate]].
  destruct (is_int p); simpl;
    [split; [discriminate | intros [_ [_ [H _]]]; discriminate]|].
  destruct (hashable p); simpl.
  - destruct (dict_find p issue_map); simpl;
      (split; [discriminate | intros [_ [_ [_ H]]]; discriminate]).
  - split; [intros [= <-]; auto | intros [-> _]; reflexivity].
Qed.

Section Reconciler.

Variable rt : runtime.

Lemma body_check_raises (v : value) (e : exn) :
  body_has_required_fields rt v = Raise e <->
  e = AttributeError /\ truthy v = true /\ is_str v = false.
Proof.
  unfold body_has_required_fields. destruct (truthy v) eqn:Et; simpl.
  - destruct v; simpl; try (split; [intros [= <-]; auto | intros [-> _]; reflexivity]).
    split; [discriminate | intros [_ [_ H]]; discriminate].
  - split; [discriminate | intros [_ [H _]]; discriminate].
Qed.

(** X12. Resolving the expected parent raises only a [TypeError], and
    exactly when the parent reference is truthy, is no integer and
    cannot be hashed (a list or a dict); in particular the lookup in
    the issue map never raises [KeyError]. *)
Theorem parent_resolution_raises_only_on_unhashable
    (p : value) (issue_map : dict) :
  (forall e, map_parent_canonical_to_number p issue_map = Raise e ->
             e = TypeError)
  /\ ((exists e, map_parent_canonical_to_number p issue_map = Raise e)
      <-> bad_parent p).
Proof.
  split.
  - intros e H. now apply map_parent_raises in H.
  - split.
    + intros [e H]. now apply map_parent_raises in H.
    + intros H. exists TypeError. now apply map_parent_raises.
Qed.

(** X14. A remote body that is empty or null fails the check without
    an error; a body that is neither empty nor text raises
    [AttributeError], and nothing else makes the check raise. *)
Theorem body_check_on_what_is_no_text (v : value) :
  (truthy v = false -> body_has_required_fields rt v = Ok false)
  /\ (forall e, body_has_required_fields rt v = Raise e <->
                e = AttributeError /\ truthy v = true /\ is_str v = false).
Proof.
  split; [|intros e; apply body_check_raises].
  unfold body_has_required_fields. now intros ->.
Qed.

(** *** The listing *)

Lemma title_matches_dicts (t : string) (arr : list value) :
  forallb is_dict arr = true ->
  title_matches (VStr t) arr = Ok (as_dicts (filter (titled t) arr)).
Proof.
  induction arr as [|item arr IH]; intros Hall; [reflexivity|].
  simpl in Hall. apply andb_prop in Hall as [Hi Hall].
  destruct item as [| | | | | | |d]; try discriminate.
  cbn [title_matches filter]. rewrite (IH Hall), titled_py_eq. cbn [bind].
  destruct (titled t (VDict d)); reflexivity.
Qed.

Lemma title_matches_raises (title : value) (arr : list value) :
  forallb is_dict arr = false ->
  title_matches title arr = Raise AttributeError.
Proof.
  induction arr as [|item arr IH]; intros Hall; [discriminate|].
  simpl in Hall. destruct item; try reflexivity.
  simpl in Hall. cbn [title_matches]. now rewrite (IH Hall).
Qed.

Lemma in_as_dicts (d : dict) (items : list value) :
  In d (as_dicts items) <-> In (VDict d) items.
Proof.
  unfold as_dicts. rewrite in_flat_map. split.
  - intros [i [Hi Hd]]. destruct i; try contradiction.
    destruct Hd as [<- | []]. exact Hi.
  - intros H. exists (VDict d). split; [exact H | now left].
Qed.

Lemma titled_iff (t : string) (d : dict) :
  titled t (VDict d) = true <-> dict_get d "title" = VStr t.
Proof.
  unfold titled. destruct (dict_get d "title"); try (split; discriminate).
  rewrite String.eqb_eq. split; [now intros -> | now intros [= ->]].
Qed.

(** X15. Against a listing of tickets, the matches for a title [t] are
    exactly the listed tickets whose title is the string [t], letter
    for letter, in the order of the listing. *)
Theorem matches_are_the_exactly_titled
    (p : completed_process) (t : string) (arr : list value) :
  returncode p = 0%Z ->
  stdout_json p = Ok (VList arr) ->
  forallb is_dict arr = true ->
  gh_issue_list_by_title p (VStr t) = Ok (as_dicts (filter (titled t) arr))
  /\ (forall d, In d (as_dicts (filter (titled t) arr))
                <-> In (VDict d) arr /\ dict_get d "title" = VStr t).
Proof.
  intros Hrc Hout Hall. split.
  - unfold gh_issue_list_by_title. rewrite Hrc, Hout. simpl.
    now apply title_matches_dicts.
  - intros d. now rewrite in_as_dicts, filter_In, titled_iff.
Qed.

(** X16. A listing command that succeeds but prints what is no list of
    tickets (a scalar, or a list with an item that is no object) is
    handled like a failed query: the run exits with status 1. *)
Theorem malformed_listing_exits
    (issues_map c : dict) (w : responses) (e v : value) :
  map_parent_canonical_to_number (dict_get c "parent_canonical") issues_map
    = Ok e ->
  returncode (issue_list w) = 0%Z ->
  stdout_json (issue_list w) = Ok v ->
  malformed_listing v = true ->
  reconcile rt issues_map c w = Exit 1.
Proof.
  intros He Hrc Hout Hbad. unfold reconcile, gh_issue_list_by_title.
  rewrite He, Hrc, Hout. simpl.
  destruct v; try discriminate; try reflexivity.
  simpl in Hbad. apply negb_true_iff in Hbad.
  simpl. now rewrite title_matches_raises.
Qed.

Lemma as_dicts_length_dicts (items : list value) :
  forallb is_dict items = true ->
  List.length (as_dicts items) = List.length items.
Proof.
  induction items as [|item items IH]; intros Hall; [reflexivity|].
  simpl in Hall. apply andb_prop in Hall as [Hi Hall].
  destruct item; try discriminate. simpl. now rewrite (IH Hall).
Qed.

Lemma numbers_of_missing (items : list value) :
  forallb is_dict items = true ->
  forallb remote_ticket items = false ->
  numbers_of (as_dicts items) = Raise KeyError.
Proof.
  induction items as [|item items IH]; intros Hd Hr; [discriminate|].
  simpl in Hd. apply andb_prop in Hd as [Hi Hd].
  destruct item as [| | | | | | |d]; try discriminate.
  simpl in Hr. change (as_dicts (VDict d :: items)) with (d :: as_dicts items).
  cbn [numbers_of]. unfold dict_getitem. simpl hashable. cbv iota.
  destruct (dict_find (VStr "number") d); [|reflexivity].
  simpl in Hr. cbn [bind]. now rewrite (IH Hd Hr).
Qed.

(** X17. Two or more remote tickets share the candidate's title and one
    of them carries no [number]: the run dies of an uncaught
    [KeyError], since the ambiguous branch indexes [m['number']]. *)
Theorem ambiguous_match_without_number_crashes
    (issues_map c : dict) (w : responses) (t : string)
    (arr : list value) (e : value) :
  dict_get c "title" = VStr t ->
  returncode (issue_list w) = 0%Z ->
  stdout_json (issue_list w) = Ok (VList arr) ->
  forallb is_dict arr = true ->
  map_parent_canonical_to_number (dict_get c "parent_canonical") issues_map
    = Ok e ->
  2 <= List.length (filter (titled t) arr) ->
  forallb remote_ticket (filter (titled t) arr) = false ->
  reconcile rt issues_map c w = Uncaught KeyError.
Proof.
  intros Ht Hrc Hout Hall He Hmany Hnum.
  pose proof (forallb_filter is_dict (titled t) arr Hall) as Hf.
  pose proof (as_dicts_length_dicts _ Hf) as Hlen.
  pose proof (numbers_of_missing _ Hf Hnum) as Hn.
  unfold reconcile, gh_issue_list_by_title. rewrite He, Ht, Hrc, Hout. simpl.
  rewrite (title_matches_dicts t arr Hall).
  destruct (as_dicts (filter (titled t) arr)) as [|m ms] eqn:Em.
  - simpl in Hlen. lia.
  - assert (Hlt : Nat.ltb 1 (List.length (m :: ms)) = true)
      by (apply Nat.ltb_lt; lia).
    now rewrite Hlt, Hn.
Qed.

(** *** The parent *)

Lemma py_eq_none_r (v : value) : py_eq v VNone = true -> v = VNone.
Proof. destruct v; simpl; try discriminate; reflexivity. Qed.

Lemma parent_ok_none (e : value) : parent_ok e VNone = is_none e.
Proof.
  unfold parent_ok. destruct (is_none e) eqn:E; [reflexivity|]. simpl.
  destruct (py_eq e VNone) eqn:Ep; [|reflexivity].
  apply py_eq_none_r in Ep. subst e. discriminate.
Qed.

Lemma is_none_iff (v : value) : is_none v = true <-> v = VNone.
Proof. destruct v; simpl; split; (discriminate || reflexivity). Qed.

(** X18. When the parent lookup for the single match fails, the remote
    parent reads as null.  The ticket is then Correct only if no
    parent was expected and the body has its markers; otherwise it is
    exported, and the [notes] of its record hold the remote number, a
    null [remote_parent_number], however well the ticket is linked
    remotely, and the outcome of the body check. *)
Theorem failed_lookup_verdict
    (issues_map c : dict) (w : responses) (st : state) (t : string)
    (arr : list value) (e : value) (remote : dict) (b : string) :
  dict_get c "title" = VStr t ->
  snapshot w arr ->
  map_parent_canonical_to_number (dict_get c "parent_canonical") issues_map
    = Ok e ->
  filter (titled t) arr = [VDict remote] ->
  dict_get remote "body" <or> VStr "" = VStr b ->
  lookup_fails (sub_issue_list w (dict_get remote "number")) ->
  let complete := e = VNone /\ all_markers rt b in
  (complete ->
     loop_body rt issues_map st c w =
       Done {| exported := exported st;
               scanned := S (scanned st);
               fully_correct := S (fully_correct st);
               ambiguous := ambiguous st |})
  /\ (~ complete ->
       exists body_ok : bool,
         (body_ok = true <-> all_markers rt b)
         /\ loop_body rt issues_map st c w =
              Done {| exported :=
                        exported st
                        ++ [export_record c e
                            ++ [(VStr "notes",
                                 VDict
                                   [ (VStr "remote_issue_number",
                                      dict_get remote "number");
                                     (VStr "remote_parent_number", VNone);
                                     (VStr "body_has_required_fields",
                                      VBool body_ok) ])]];
                      scanned := S (scanned st);
                      fully_correct := fully_correct st;
                      ambiguous := ambiguous st |}).
Proof.
  intros Ht Hsnap He Hone Hbody Hfail complete.
  destruct (reconcile_single rt _ _ _ _ _ _ Ht Hsnap He _ _ Hone Hbody)
    as [ok [Hok Hr]].
  cbv zeta in Hr.
  rewrite (lookup_failure_is_no_parent _ Hfail), parent_ok_none in Hr.
  assert (Hc : is_none e && ok = true <-> complete).
  { unfold complete. now rewrite andb_true_iff, is_none_iff, Hok. }
  destruct (is_none e && ok) eqn:Eb.
  - split; [intros _; now rewrite (loop_body_done rt _ st _ _ _ _ Hr)|].
    intros Hno. exfalso. now apply Hno, Hc.
  - split; [intros H; apply Hc in H; discriminate|].
    intros _. exists ok. split; [exact Hok|].
    now rewrite (loop_body_done rt _ st _ _ _ _ Hr).
Qed.

(** X19. A candidate whose parent reference cannot be hashed ends the
    run with an uncaught [TypeError], whatever the remote store would
    have answered, after any number of candidates handled normally. *)
Theorem unhashable_parent_crashes
    (issues_map : dict) (gh : nat -> responses)
    (pre : list dict) (c : dict) (post : list dict) (st : state) :
  loop rt issues_map gh start pre = Done st ->
  bad_parent (dict_get c "parent_canonical") ->
  main rt (pre ++ c :: post) issues_map gh = Uncaught TypeError.
Proof.
  intros Hpre Hbad. unfold main. rewrite loop_app, Hpre. cbn [and_then loop].
  unfold loop_body, reconcile.
  assert (H : map_parent_canonical_to_number (dict_get c "parent_canonical")
                issues_map = Raise TypeError)
    by now apply map_parent_raises.
  now rewrite H.
Qed.

(** *** How a run can end *)

Lemma reconcile_ends (issues_map c : dict) (w : responses) :
  (forall n, reconcile rt issues_map c w = Exit n -> n = 1%Z)
  /\ (forall x, reconcile rt issues_map c w = Uncaught x ->
                x = TypeError \/ x = KeyError \/ x = AttributeError).
Proof.
  unfold reconcile.
  destruct (map_parent_canonical_to_number _ _) as [e|x0] eqn:Ep;
    cbn [and_then lift].
  - destruct (gh_issue_list_by_title _ _) as [[|m ms]|].
    + split; discriminate.
    + destruct (Nat.ltb 1 _).
      * destruct (numbers_of (m :: ms)) as [ns|x1] eqn:En; cbn [and_then lift];
          [split; discriminate|].
        split; [discriminate|]. intros x [= <-]. right. left.
        now apply numbers_of_raises in En.
      * unfold check_single.
        destruct (body_has_required_fields rt _) as [ok|x1] eqn:Eb;
          cbn [and_then lift].
        -- destruct (_ && ok); split; discriminate.
        -- split; [discriminate|]. intros x [= <-]. right. right.
           now apply body_check_raises in Eb.
    + split; [now intros n [= <-] | discriminate].
  - split; [discriminate|]. intros x [= <-]. left.
    now apply map_parent_raises in Ep.
Qed.

Lemma loop_ends (issues_map : dict) (gh : nat -> responses)
    (candidates : list dict) : forall st,
  (forall n, loop rt issues_map gh st candidates = Exit n -> n = 1%Z)
  /\ (forall x, loop rt issues_map gh st candidates = Uncaught x ->
                x = TypeError \/ x = KeyError \/ x = AttributeError).
Proof.
  induction candidates as [|c cs IH]; intros st; simpl;
    [split; discriminate|].
  unfold loop_body.
  destruct (reconcile_ends issues_map c (gh (scanned st))) as [Hn Hx].
  destruct (reconcile rt issues_map c (gh (scanned st))) as [r| |]; simpl.
  - apply IH.
  - split; [intros n [= <-]; now apply Hn | discriminate].
  - split; [discriminate | intros x [= <-]; now apply Hx].
Qed.

(** X20. A run ends in one of three ways only: it completes; it exits
    with status 1, never another status; or it dies of an uncaught
    [TypeError], [KeyError] or [AttributeError], never of another
    exception. *)
Theorem run_ends_in_known_ways
    (candidates : list dict) (issues_map : dict) (gh : nat -> responses) :
  (forall n, main rt candidates issues_map gh = Exit n -> n = 1%Z)
  /\ (forall x, main rt candidates issues_map gh = Uncaught x ->
                x = TypeError \/ x = KeyError \/ x = AttributeError).
Proof.
  unfold main.
  destruct (loop_ends issues_map gh candidates start) as [Hn Hx].
  destruct (loop rt issues_map gh start candidates); simpl.
  - split; discriminate.
  - split; [intros n [= <-]; now apply Hn | discriminate].
  - split; [discriminate | intros x [= <-]; now apply Hx].
Qed.

(** *** What is written *)

Lemma py_or_default_idem (x d : value) : (x <or> d) <or> d = x <or> d.
Proof.
  unfold py_or. destruct (truthy x) eqn:E; [now rewrite E|].
  now destruct (truthy d).
Qed.

Lemma normalized_labels_default (x : value) :
  ParseLocalTicketFiles.normalize_labels rt (x <or> VList []) <or> VList []
  = ParseLocalTicketFiles.normalize_labels rt (x <or> VList []).
Proof.
  destruct (truthy x) eqn:E.
  - rewrite (py_or_truthy x _ E).
    destruct x; try (simpl; apply py_or_truthy; exact E).
    simpl. destruct (ParseLocalTicketFiles.split_labels rt s); reflexivity.
  - now rewrite (py_or_falsy x _ E).
Qed.

(** X21. The export record of a ticket that the normaliser produced
    carries the ticket's [canonical_id], [title], [body], [labels],
    [requires], [provides] and [priority] unchanged, the expected
    parent number, and the state [planned]; its [points] are the
    ticket's unless those are zero, which are exported as null. *)
Theorem export_copies_the_normalised_ticket (d : dict) (e : value) :
  let c := ParseLocalTicketFiles.normalize_ticket rt d in
  let r := export_record c e in
  (forall f, In f ["canonical_id"; "title"; "body"; "labels"; "requires";
                   "provides"; "priority"]%string ->
             dict_get r f = dict_get c f)
  /\ dict_get r "parent_issue_number" = e
  /\ dict_get r "state" = VStr "planned"
  /\ (dict_get r "points" = dict_get c "points"
      \/ (truthy (dict_get c "points") = false /\ dict_get r "points" = VNone)).
Proof.
  intros c r. split; [|split; [reflexivity | split; [reflexivity|]]].
  - intros f Hf. simpl in Hf.
    destruct Hf as [<- | [<- | [<- | [<- | [<- | [<- | [<- | []]]]]]]].
    + reflexivity.
    + reflexivity.
    + apply py_or_default_idem.
    + apply normalized_labels_default.
    + apply py_or_default_idem.
    + apply py_or_default_idem.
    + apply py_or_default_idem.
  - change (dict_get r "points") with (dict_get c "points" <or> VNone).
    unfold py_or. destruct (truthy (dict_get c "points")); auto.
Qed.

Lemma record_planned (candidates : list dict) (st : state) (c : dict)
    (e : value) (v : verdict) :
  In c candidates ->
  Forall (planned_from candidates) (exported st) ->
  Forall (planned_from candidates) (exported (record st c e v)).
Proof.
  intros Hc Hall.
  assert (H1 : forall more,
             planned_from candidates
               (export_record c e ++ [(VStr "notes", more)])).
  { intros more. split; [reflexivity|]. split; [reflexivity|].
    exists c. split; [exact Hc|]. split; reflexivity. }
  assert (H2 : planned_from candidates (export_record c e)).
  { split; [reflexivity|]. split; [reflexivity|].
    exists c. split; [exact Hc|]. split; reflexivity. }
  destruct v; simpl; try exact Hall; apply Forall_app; (split; [exact Hall|]);
    (constructor; [|constructor]); [exact H2 | exact H2 | apply H1].
Qed.

Lemma loop_planned (issues_map : dict) (gh : nat -> responses)
    (all : list dict) (candidates : list dict) : forall st st',
  (forall c, In c candidates -> In c all) ->
  loop rt issues_map gh st candidates = Done st' ->
  Forall (planned_from all) (exported st) ->
  Forall (planned_from all) (exported st').
Proof.
  induction candidates as [|c cs IH]; intros st st' Hsub H Hall; simpl in H.
  - now injection H as <-.
  - unfold loop_body in H.
    destruct (reconcile rt issues_map c (gh (scanned st))) as [[e v]| |];
      try discriminate.
    simpl in H. apply (IH _ _ (fun x Hx => Hsub x (or_intror Hx)) H).
    apply record_planned; [apply Hsub; now left | exact Hall].
Qed.

(** X22. Every record a completed run writes is marked [planned], has a
    null [issue_number], and carries the title and [canonical_id] of
    one of the candidates: the run writes nothing of its own making. *)
Theorem written_records_are_planned_candidates
    (candidates : list dict) (issues_map : dict) (gh : nat -> responses)
    (r : report) :
  main rt candidates issues_map gh = Done r ->
  Forall (planned_from candidates) (written r).
Proof.
  unfold main. intros H.
  destruct (loop rt issues_map gh start candidates) as [st| |] eqn:E;
    try discriminate.
  simpl in H. injection H as <-. simpl.
  apply (loop_planned _ _ candidates _ _ _ (fun c Hc => Hc) E). constructor.
Qed.

Lemma loop_loaded_dicts (issues_map : dict) (gh : nat -> responses)
    (cs : list dict) : forall st,
  loop_loaded rt issues_map gh st (map VDict cs) = loop rt issues_map gh st cs.
Proof.
  induction cs as [|c cs IH]; intros st; simpl; [reflexivity|].
  destruct (loop_body rt issues_map st c (gh (scanned st))); simpl;
    [apply IH | reflexivity | reflexivity].
Qed.

(** X23. [main] from its first line: without the candidates file it
    exits with status 1; a candidates file whose [candidates] are
    ticket objects is reconciled as [main] reconciles them, against the
    issue map or, when there is no issue map file, against the empty
    map; and a file without a [candidates] entry completes with
    nothing scanned and nothing written. *)
Theorem main_from_its_files :
  (forall m gh, main_entry rt None m gh = Exit 1)
  /\ (forall d cs m gh,
        dict_find (VStr "candidates") d = Some (VList (map VDict cs)) ->
        main_entry rt (Some (VDict d)) m gh =
          main rt cs (match m with Some x => x | None => [] end) gh)
  /\ (forall d m gh,
        dict_find (VStr "candidates") d = None ->
        main_entry rt (Some (VDict d)) m gh = Done (finish start)).
Proof.
  split; [reflexivity|]. split.
  - intros d cs m gh H. unfold main_entry, main. rewrite H. simpl.
    now rewrite loop_loaded_dicts.
  - intros d m gh H. unfold main_entry. now rewrite H.
Qed.

Lemma loop_nothing_listed (issues_map : dict) (gh : nat -> responses)
    (cs : list dict) : forall st,
  (forall c, In c cs -> hashable (dict_get c "parent_canonical") = true) ->
  (forall i, lists_nothing (gh i)) ->
  exists st' recs,
    loop rt issues_map gh st cs = Done st'
    /\ exported st' = exported st ++ recs
    /\ Forall2 (plain_export issues_map) cs recs
    /\ scanned st' = scanned st + List.length cs
    /\ fully_correct st' = fully_correct st
    /\ ambiguous st' = ambiguous st.
Proof.
  induction cs as [|c cs IH]; intros st Hh Hgh; cbn [loop].
  - exists st, []. rewrite app_nil_r, Nat.add_0_r. now repeat split.
  - destruct (map_parent_hashable _ issues_map (Hh c (or_introl eq_refl)))
      as [e He].
    destruct (Hgh (scanned st)) as [Hrc Hout].
    unfold loop_body, reconcile, gh_issue_list_by_title.
    rewrite He, Hrc, Hout. simpl.
    destruct (IH {| exported := exported st ++ [export_record c e];
                    scanned := S (scanned st);
                    fully_correct := fully_correct st;
                    ambiguous := ambiguous st |}
                 (fun x Hx => Hh x (or_intror Hx)) Hgh)
      as [st' [recs [Hl [Hx [Hrecs [Hs [Hf Ha]]]]]]].
    exists st', (export_record c e :: recs). split; [exact Hl|].
    simpl in Hx, Hs, Hf, Ha. rewrite Hx, <- app_assoc.
    split; [reflexivity|]. split; [|repeat split; auto; lia].
    constructor; [now exists e | exact Hrecs].
Qed.

Lemma plain_export_titles (issues_map : dict) (cs recs : list dict) :
  Forall2 (plain_export issues_map) cs recs ->
  map (fun rec => dict_get rec "title") recs
  = map (fun c => dict_get c "title") cs.
Proof.
  induction 1 as [|c rec cs recs [e [_ ->]] _ IH]; [reflexivity|].
  simpl. now rewrite IH.
Qed.

(** X24. Against a remote store that lists no ticket, the loop over
    candidates with hashable parent references ends normally with
    every candidate scanned, none counted as correct or ambiguous, and
    one plain export record per candidate queued for the write, in the
    candidates' order: the thirteen fields, with the parent number the
    issue map gives, and no [notes].  Whether the write that follows
    succeeds is not covered. *)
Theorem empty_store_exports_every_candidate
    (candidates : list dict) (issues_map : dict) (gh : nat -> responses) :
  (forall c, In c candidates ->
             hashable (dict_get c "parent_canonical") = true) ->
  (forall i, lists_nothing (gh i)) ->
  exists st,
    loop rt issues_map gh start candidates = Done st
    /\ Forall2 (plain_export issues_map) candidates (exported st)
    /\ map (fun rec => dict_get rec "title") (exported st)
       = map (fun c => dict_get c "title") candidates
    /\ scanned st = List.length candidates
    /\ fully_correct st = 0
    /\ ambiguous st = [].
Proof.
  intros Hh Hgh.
  destruct (loop_nothing_listed issues_map gh candidates start Hh Hgh)
    as [st [recs [Hl [Hx [Hrecs [Hs [Hf Ha]]]]]]].
  exists st. simpl in Hx. subst recs.
  split; [exact Hl|]. split; [exact Hrecs|].
  split; [now apply (plain_export_titles issues_map)|]. now repeat split.
Qed.

End Reconciler.

(** *** Concrete runs *)

Lemma matches_are_the_exactly_titled_witness :
  gh_issue_list_by_title
    (listing [remote_cache 11 good_body;
              VDict [(VStr "number", VInt 12);
                     (VStr "title", VStr "add caching layer")];
              remote_cache 13 ""])
    (VStr "Add caching layer")
  = Ok (as_dicts [remote_cache 11 good_body; remote_cache 13 ""]).
Proof.
  apply (matches_are_the_exactly_titled
           (listing [remote_cache 11 good_body;
                     VDict [(VStr "number", VInt 12);
                            (VStr "title", VStr "add caching layer")];
                     remote_cache 13 ""])
           "Add caching layer" _ eq_refl eq_refl eq_refl).
Defined.

Lemma malformed_listing_exits_witness :
  malformed_listing (VList [VStr "rate limit exceeded"]) = true
  /\ reconcile ascii_runtime sample_map cache_candidate garbled = Exit 1.
Proof.
  split; [reflexivity|].
  apply (malformed_listing_exits ascii_runtime sample_map cache_candidate
           garbled (VInt 42) (VList [VStr "rate limit exceeded"])
           eq_refl eq_refl eq_refl eq_refl).
Defined.

Lemma ambiguous_match_without_number_crashes_witness :
  forallb remote_ticket [remote_cache 11 good_body; numberless] = false
  /\ reconcile ascii_runtime sample_map cache_candidate two_numberless
     = Uncaught KeyError.
Proof.
  split; [reflexivity|].
  apply (ambiguous_match_without_number_crashes ascii_runtime sample_map
           cache_candidate two_numberless "Add caching layer"
           [remote_cache 11 good_body; numberless] (VInt 42)
           eq_refl eq_refl eq_refl eq_refl eq_refl);
    [simpl; lia | reflexivity].
Defined.

Lemma failed_lookup_verdict_witness :
  lookup_fails (sub_issue_list one_unlinked (VInt 11))
  /\ ~ (VInt 42 = VNone /\ all_markers ascii_runtime good_body)
  /\ exists body_ok : bool,
       (body_ok = true <-> all_markers ascii_runtime good_body)
       /\ loop_body ascii_runtime sample_map start cache_candidate
            one_unlinked =
            Done {| exported :=
                      [] ++ [export_record cache_candidate (VInt 42)
                             ++ [(VStr "notes",
                                  VDict
                                    [ (VStr "remote_issue_number", VInt 11);
                                      (VStr "remote_parent_number", VNone);
                                      (VStr "body_has_required_fields",
                                       VBool body_ok) ])]];
                    scanned := 1;
                    fully_correct := 0;
                    ambiguous := [] |}.
Proof.
  assert (H : lookup_fails (sub_issue_list one_unlinked (VInt 11)))
    by (left; discriminate).
  assert (Hno : ~ (VInt 42 = VNone /\ all_markers ascii_runtime good_body))
    by (intros [Heq _]; discriminate).
  split; [exact H|]. split; [exact Hno|].
  apply (failed_lookup_verdict ascii_runtime sample_map cache_candidate
           one_unlinked start "Add caching layer"
           [remote_cache 11 good_body] (VInt 42)
           [ (VStr "number", VInt 11);
             (VStr "title", VStr "Add caching layer");
             (VStr "body", VStr good_body) ]
           good_body
           eq_refl (conj eq_refl (conj eq_refl eq_refl)) eq_refl
           eq_refl eq_refl H).
  exact Hno.
Defined.

Lemma unhashable_parent_crashes_witness :
  bad_parent (dict_get list_parented "parent_canonical")
  /\ main ascii_runtime
          ([cache_candidate] ++ list_parented :: [index_candidate])
          sample_map flaky_free
     = Uncaught TypeError.
Proof.
  assert (H : bad_parent (dict_get list_parented "parent_canonical"))
    by (repeat split).
  split; [exact H|].
  eapply (unhashable_parent_crashes ascii_runtime sample_map flaky_free
            [cache_candidate]);
    [reflexivity | exact H].
Defined.

Lemma written_records_are_planned_candidates_witness :
  exists r,
    main ascii_runtime four_candidates sample_map flaky_free = Done r
    /\ List.length (written r) = 3
    /\ Forall (planned_from four_candidates) (written r).
Proof.
  eexists. split; [reflexivity|]. split; [reflexivity|].
  apply (written_records_are_planned_candidates ascii_runtime
           four_candidates sample_map flaky_free _ eq_refl).
Defined.

Lemma main_from_its_files_witness :
  main_entry ascii_runtime (Some loaded_file) None empty_store
  = main ascii_runtime [cache_candidate; index_candidate] [] empty_store.
Proof.
  destruct (main_from_its_files ascii_runtime) as [_ [H _]].
  apply (H _ [cache_candidate; index_candidate] None empty_store).
  reflexivity.
Defined.

Lemma empty_store_exports_every_candidate_witness :
  (forall i, lists_nothing (empty_store i))
  /\ exists st,
       loop ascii_runtime sample_map empty_store start four_candidates
         = Done st
       /\ Forall2 (plain_export sample_map) four_candidates (exported st)
       /\ map (fun rec => dict_get rec "title") (exported st)
          = map (fun c => dict_get c "title") four_candidates
       /\ scanned st = 4
       /\ fully_correct st = 0
       /\ ambiguous st = [].
Proof.
  assert (H : forall i, lists_nothing (empty_store i)) by (intro i; now split).
  split; [exact H|].
  apply (empty_store_exports_every_candidate ascii_runtime four_candidates
           sample_map empty_store); [|exact H].
  intros c Hc. unfold four_candidates in Hc. simpl in Hc.
  repeat (destruct Hc as [<- | Hc]; [reflexivity|]). contradiction.
Defined.

End CompareExtras.
